(** * gtri-gfet: STL mesh analysis scripts, embedded in Rocq

    A shallow embedding of the geometry scripts of the repository
    (analyze_stl.py, detect_helical.py, better_hole_finder.py,
    find_hole_positions.py, sphere_sweep_detection.py, find_stacked_ports.py)
    and the properties their specification states about them.

    Python floats are IEEE binary64 values: they are modelled by Rocq's
    primitive floats, whose operations are the same correctly rounded IEEE
    operations.  Python exceptions are modelled by an error monad. *)

From Stdlib Require Import ZArith List Bool Lia Permutation Sorted.
From Stdlib Require Import Floats.
From Stdlib Require Import Strings.Byte.
Import ListNotations.

Set Implicit Arguments.

(* Decimal literals denote the nearest binary64 value, as in Python. *)
Set Warnings "-inexact-float".

(** ** Python exceptions *)

Inductive exn : Type :=
| struct_error
| ZeroDivisionError
| ValueError
| OverflowError.

Inductive result (A : Type) : Type :=
| Ok (a : A)
| Raise (e : exn).

Arguments Ok {A} a.
Arguments Raise {A} e.

Definition bind {A B : Type} (c : result A) (k : A -> result B) : result B :=
  match c with
  | Ok a => k a
  | Raise e => Raise e
  end.

Declare Scope py_scope.
Delimit Scope py_scope with py.
Notation "x <- c ;; k" := (bind c (fun x => k))
  (at level 61, c at next level, right associativity) : py_scope.
Notation "' pat <- c ;; k" := (bind c (fun x => match x with pat => k end))
  (at level 61, pat pattern, c at next level, right associativity) : py_scope.
Open Scope py_scope.

(** [for x in l: ...] with an accumulator, stopping at the first exception. *)
Fixpoint foldM {A S : Type} (step : S -> A -> result S) (l : list A) (s : S)
  : result S :=
  match l with
  | [] => Ok s
  | x :: l' => s' <- step s x ;; foldM step l' s'
  end.

(** A list comprehension whose element expression may raise. *)
Fixpoint mapM {A B : Type} (f : A -> result B) (l : list A) : result (list B) :=
  match l with
  | [] => Ok []
  | x :: l' => y <- f x ;; ys <- mapM f l' ;; Ok (y :: ys)
  end.

(** ** Python numbers *)

Module Py.

(** [float(n)] for an integer [n] (exact whenever [n] is representable). *)
Definition float_of_Z (n : Z) : float :=
  SF2Prim (binary_normalize prec emax n 0 false).

Definition float_of_nat (n : nat) : float := float_of_Z (Z.of_nat n).

(** [x / y] on floats: a zero divisor raises. *)
Definition truediv (x y : float) : result float :=
  if (y =? 0)%float then Raise ZeroDivisionError else Ok (x / y)%float.

(** [x / n] for a float (or the integer 0 of an empty [sum]) and [n = len(..)]. *)
Definition div_len (x : float) (n : nat) : result float :=
  match n with
  | O => Raise ZeroDivisionError
  | S _ => Ok (x / float_of_nat n)%float
  end.

(** [math.sqrt]: a domain error when the argument is negative. *)
Definition sqrt (x : float) : result float :=
  let r := PrimFloat.sqrt x in
  if is_nan r && negb (is_nan x) then Raise ValueError else Ok r.

(** [round(x)] with one argument: the nearest integer, ties to even;
    NaN raises ValueError and an infinity OverflowError. *)
Definition round_half_even (m : positive) (e : Z) : Z :=
  match e with
  | Zneg p =>
      let d := Z.pow 2 (Zpos p) in
      let q := Z.div (Zpos m) d in
      let r := Z.modulo (Zpos m) d in
      match Z.compare (2 * r) d with
      | Lt => q
      | Gt => q + 1
      | Eq => if Z.even q then q else q + 1
      end
  | _ => Zpos m * Z.pow 2 e
  end%Z.

Definition round (x : float) : result Z :=
  match Prim2SF x with
  | S754_nan => Raise ValueError
  | S754_infinity _ => Raise OverflowError
  | S754_zero _ => Ok 0%Z
  | S754_finite s m e =>
      let n := round_half_even m e in Ok (if s then Z.opp n else n)
  end.

(** [int(x)]: truncation toward zero, raising like [round]. *)
Definition int (x : float) : result Z :=
  match Prim2SF x with
  | S754_nan => Raise ValueError
  | S754_infinity _ => Raise OverflowError
  | S754_zero _ => Ok 0%Z
  | S754_finite s m e =>
      let n := match e with
               | Zneg p => Z.div (Zpos m) (Z.pow 2 (Zpos p))
               | _ => (Zpos m * Z.pow 2 e)%Z
               end in
      Ok (if s then Z.opp n else n)
  end.

(** [n / d] on integers ([round(..) / 5]): both operands are exactly
    representable at every use, so the quotient is the float quotient. *)
Definition int_truediv (n d : Z) : result float :=
  if (d =? 0)%Z then Raise ZeroDivisionError
  else Ok (float_of_Z n / float_of_Z d)%float.

(** [min(xs)] and [max(xs)]: ValueError on an empty sequence; the first
    element stays unless a later one compares strictly below (above). *)
Definition min (xs : list float) : result float :=
  match xs with
  | [] => Raise ValueError
  | x :: xs' => Ok (fold_left (fun m y => if (y <? m)%float then y else m) xs' x)
  end.

Definition max (xs : list float) : result float :=
  match xs with
  | [] => Raise ValueError
  | x :: xs' => Ok (fold_left (fun m y => if (m <? y)%float then y else m) xs' x)
  end.

(** [math.pi]. *)
Definition pi : float := 0x1.921fb54442d18p+1%float.

End Py.

(** What IEEE 754 and the language leave to the platform: the C library
    functions behind [x ** 2] and [math.atan2], Python's decimal
    [round(x, 2)], and [sum] over floats (plain left-to-right addition
    before Python 3.12, compensated summation since).  The properties
    below hold whatever these functions are. *)
Class Platform : Type := {
  c_pow2 : float -> float;          (* pow(x, 2.0) for finite x > 0, x <> 1 *)
  c_atan2 : float -> float -> float;
  round2 : float -> float;          (* round(x, 2) *)
  float_sum : list float -> float   (* sum(xs) *)
}.

(** [x ** 2] as CPython's float_pow evaluates it: the special cases first,
    then the C library; a finite base whose square is infinite raises. *)
Definition py_pow2 `{Platform} (x : float) : result float :=
  if is_nan x then Ok x
  else if is_infinity x then Ok (abs x)
  else if (x =? 0)%float then Ok 0%float
  else if (abs x =? 1)%float then Ok 1%float
  else let r := c_pow2 (abs x) in
       if is_infinity r then Raise OverflowError else Ok r.

(** ** Mesh data *)

Definition vec3 : Type := (float * float * float)%type.
Definition v0 (v : vec3) : float := fst (fst v).
Definition v1 (v : vec3) : float := snd (fst v).
Definition v2 (v : vec3) : float := snd v.

Record facet : Type := mkFacet {
  normal : vec3;
  vertices : list vec3
}.

(** ** Binary STL parser (parse_binary_stl) *)

Definition stream : Type := list byte.

(** [f.read(n)]: up to [n] bytes, and the rest of the stream. *)
Definition read (n : nat) (f : stream) : list byte * stream :=
  (firstn n f, skipn n f).

Definition byteZ (b : byte) : Z := Z.of_N (Byte.to_N b).

(** Little-endian combination of bytes. *)
Fixpoint le_combine (bs : list byte) : Z :=
  match bs with
  | [] => 0
  | b :: bs' => Z.lor (byteZ b) (Z.shiftl (le_combine bs') 8)
  end.

(** The binary64 value of an IEEE binary32 bit pattern. *)
Definition f32_of_bits (w : Z) : float :=
  let s := Z.testbit w 31 in
  let e := Z.land (Z.shiftr w 23) 255 in
  let m := Z.land w (Z.ones 23) in
  let mag :=
    if (e =? 255)%Z then (if (m =? 0)%Z then infinity else nan)
    else if (e =? 0)%Z then Z.ldexp (Py.float_of_Z m) (-149)
    else Z.ldexp (Py.float_of_Z (m + 2 ^ 23)) (e - 150) in
  if s then (- mag)%float else mag.

(** [struct.unpack('<I', b)[0]]. *)
Definition unpack_I (b : list byte) : result Z :=
  match b with
  | [_; _; _; _] => Ok (le_combine b)
  | _ => Raise struct_error
  end.

(** [struct.unpack('<fff', b)]. *)
Definition unpack_fff (b : list byte) : result vec3 :=
  match b with
  | [a0; a1; a2; a3; b0; b1; b2; b3; c0; c1; c2; c3] =>
      Ok (f32_of_bits (le_combine [a0; a1; a2; a3]),
          f32_of_bits (le_combine [b0; b1; b2; b3]),
          f32_of_bits (le_combine [c0; c1; c2; c3]))
  | _ => Raise struct_error
  end.

(** One iteration of the loop body: four 12-byte reads, one 2-byte read. *)
Definition read_triangle (f : stream) : result (facet * stream) :=
  let '(b, f) := read 12 f in
  normal <- unpack_fff b ;;
  let '(b, f) := read 12 f in
  v1 <- unpack_fff b ;;
  let '(b, f) := read 12 f in
  v2 <- unpack_fff b ;;
  let '(b, f) := read 12 f in
  v3 <- unpack_fff b ;;
  let '(_, f) := read 2 f in
  Ok (mkFacet normal [v1; v2; v3], f).

(** [for _ in range(num_triangles): ... facets.append(..)]. *)
Fixpoint read_triangles (n : nat) (f : stream) (facets : list facet)
  : result (list facet) :=
  match n with
  | O => Ok facets
  | S n' =>
      '(t, f') <- read_triangle f ;;
      read_triangles n' f' (facets ++ [t])
  end.

Definition parse_binary_stl (file : stream) : result (list facet) :=
  let '(header, f) := read 80 file in
  let '(b, f) := read 4 f in
  num_triangles <- unpack_I b ;;
  read_triangles (Z.to_nat num_triangles) f [].

(** The facet a 50-byte record denotes, in the words of the format: the
    normal triple at offset 0 and the vertex triples at offsets 12, 24 and
    36, each component a little-endian binary32; bytes 48 and 49 unused. *)
Definition f32_at (b : list byte) (off : nat) : float :=
  f32_of_bits (le_combine (firstn 4 (skipn off b))).

Definition vec3_at (b : list byte) (off : nat) : vec3 :=
  (f32_at b off, f32_at b (off + 4), f32_at b (off + 8)).

Definition facet_of_record (b : list byte) : facet :=
  mkFacet (vec3_at b 0) [vec3_at b 12; vec3_at b 24; vec3_at b 36].


(** Test data: one facet record (48 float bytes) and a 2-byte attribute. *)
Definition sample_body : list byte :=
  [x00;x00;x80;x3f; x00;x00;x00;x40; x00;x00;x40;xc0;
   x00;x00;x00;x00; x00;x00;x00;x3f; x00;x00;x80;x40;
   x00;x00;xa0;x40; x00;x00;xc0;x40; x00;x00;xe0;x40;
   x00;x00;x00;x41; x00;x00;x10;x41; x00;x00;x20;x41].

Definition sample_header : list byte := repeat x20 80.

Definition count_bytes (b0 : byte) : list byte := [b0; x00; x00; x00].

(** ** Bore candidates and their clustering
    (better_hole_finder.cluster_holes, find_hole_positions.find_holes) *)

(** The dictionary both scripts build for a hole candidate.  The last key
    is 'confidence' in better_hole_finder.py and 'num_verts' in
    find_hole_positions.py; in both it is a vertex count. *)
Record hole : Type := mkHole {
  center_x : float;
  center_y : float;
  z_min : float;
  z_max : float;
  depth : float;
  radius : float;
  diameter : float;
  confidence : Z
}.

Section Clustering.
Context `{Platform}.

(** [math.sqrt((x1 - x2)**2 + (y1 - y2)**2)]. *)
Definition plane_dist (x1 y1 x2 y2 : float) : result float :=
  sx <- py_pow2 (x1 - x2)%float ;;
  sy <- py_pow2 (y1 - y2)%float ;;
  Py.sqrt (sx + sy)%float.

Definition hole_dist (h c : hole) : result float :=
  plane_dist (center_x h) (center_y h) (center_x c) (center_y c).

(** [sorted(holes, key=lambda h: h['confidence'], reverse=True)]: stable,
    so holes of equal confidence keep their input order. *)
Fixpoint insert_desc (h : hole) (l : list hole) : list hole :=
  match l with
  | [] => [h]
  | x :: l' =>
      if (confidence h <? confidence x)%Z then x :: insert_desc h l'
      else h :: l
  end.

Definition sorted_desc (holes : list hole) : list hole :=
  fold_right insert_desc [] holes.

(** The inner loop [for cluster in clustered] of cluster_holes: [None] when
    it ends with [merged] still false, [Some clustered'] after the [break],
    where [cluster.update(hole)] has overwritten every key of the cluster. *)
Fixpoint merge_into (distance_threshold : float) (h : hole) (clustered : list hole)
  : result (option (list hole)) :=
  match clustered with
  | [] => Ok None
  | cluster :: rest =>
      dist <- hole_dist h cluster ;;
      if (dist <? distance_threshold)%float then
        Ok (Some ((if (confidence h >? confidence cluster)%Z then h else cluster)
                    :: rest))
      else
        r <- merge_into distance_threshold h rest ;;
        Ok (option_map (cons cluster) r)
  end.

Definition cluster_step (distance_threshold : float) (clustered : list hole)
    (h : hole) : result (list hole) :=
  r <- merge_into distance_threshold h clustered ;;
  match r with
  | Some clustered' => Ok clustered'
  | None => Ok (clustered ++ [h])
  end.

Definition cluster_holes (holes : list hole) (distance_threshold : float)
  : result (list hole) :=
  match holes with
  | [] => Ok []
  | _ => foldM (cluster_step distance_threshold) (sorted_desc holes) []
  end.

(** cluster_holes with the [cluster.update(hole)] branch deleted. *)
Fixpoint merge_keep (distance_threshold : float) (h : hole) (clustered : list hole)
  : result bool :=
  match clustered with
  | [] => Ok false
  | cluster :: rest =>
      dist <- hole_dist h cluster ;;
      if (dist <? distance_threshold)%float then Ok true
      else merge_keep distance_threshold h rest
  end.

Definition cluster_step_keep (distance_threshold : float) (clustered : list hole)
    (h : hole) : result (list hole) :=
  merged <- merge_keep distance_threshold h clustered ;;
  Ok (if merged : bool then clustered else clustered ++ [h]).

Definition cluster_holes_keep (holes : list hole) (distance_threshold : float)
  : result (list hole) :=
  match holes with
  | [] => Ok []
  | _ => foldM (cluster_step_keep distance_threshold) (sorted_desc holes) []
  end.

(** The duplicate-removal loop of find_holes (distance 2, hard-coded):
    a candidate within range of a kept hole is dropped, or replaces it at
    the end of the list when it has more vertices. *)
Fixpoint replace_duplicate (h : hole) (unique_holes : list hole)
  : result (option (list hole)) :=
  match unique_holes with
  | [] => Ok None
  | uh :: rest =>
      dist <- hole_dist h uh ;;
      if (dist <? 2)%float then
        Ok (Some (if (confidence h >? confidence uh)%Z then rest ++ [h]
                  else uh :: rest))
      else
        r <- replace_duplicate h rest ;;
        Ok (option_map (cons uh) r)
  end.

Definition unique_step (unique_holes : list hole) (h : hole)
  : result (list hole) :=
  r <- replace_duplicate h unique_holes ;;
  match r with
  | Some unique_holes' => Ok unique_holes'
  | None => Ok (unique_holes ++ [h])
  end.

Definition unique_holes_of (hole_candidates : list hole) : result (list hole) :=
  foldM unique_step hole_candidates [].

(** Two candidates agree up to the merge distance: the same center, or
    centers closer than the threshold. *)
Definition near (distance_threshold : float) (a b : hole) : Prop :=
  (center_x a = center_x b /\ center_y a = center_y b)
  \/ exists d, hole_dist a b = Ok d /\ (d <? distance_threshold)%float = true.

End Clustering.

(** Descending order of confidence. *)
Definition conf_ge (a b : hole) : Prop := (confidence b <= confidence a)%Z.
Definition conf_gt (a b : hole) : Prop := (confidence b < confidence a)%Z.

(** [l1] is [l2] with some elements left out. *)
Inductive subseq {A : Type} : list A -> list A -> Prop :=
| subseq_nil : subseq [] []
| subseq_skip x l1 l2 : subseq l1 l2 -> subseq l1 (x :: l2)
| subseq_keep x l1 l2 : subseq l1 l2 -> subseq (x :: l1) (x :: l2).

(** A platform for the examples, whose data are chosen so that every
    platform agrees with it on them: the squares and sums are exactly
    representable, [atan2] is only taken on the positive x axis, and
    [round(x, 2)] only of integers. *)
#[local] Instance exact_platform : Platform := {|
  c_pow2 := fun x => (x * x)%float;
  c_atan2 := fun _ _ => 0%float;
  round2 := fun x => x;
  float_sum := fun xs => fold_left PrimFloat.add xs 0%float
|}.

Definition hole_at (x zlo zhi : float) (conf : Z) : hole :=
  mkHole x 0 zlo zhi (zhi - zlo) 3 6 conf.

(** ** Containers keyed by floats *)

(** [sorted(xs)] on floats: stable, by [<]. *)
Fixpoint insert_asc (x : float) (l : list float) : list float :=
  match l with
  | [] => [x]
  | y :: l' => if (y <? x)%float then y :: insert_asc x l' else x :: l
  end.

Definition sorted_floats (xs : list float) : list float :=
  fold_right insert_asc [] xs.

(** [set(xs)] on floats, as the list of its distinct members: [==] decides
    membership, so 0.0 and -0.0 are one member and every NaN is its own. *)
Definition float_set (xs : list float) : list float :=
  fold_left (fun s x => if existsb (fun y => (y =? x)%float) s then s
                        else s ++ [x]) xs [].

(** A [dict] (or [defaultdict]) with float keys, in insertion order:
    [d[k] = f(d.get(k))]. *)
Fixpoint dict_upd {V : Type} (k : float) (f : option V -> V)
    (d : list (float * V)) : list (float * V) :=
  match d with
  | [] => [(k, f None)]
  | (k', v) :: d' =>
      if (k' =? k)%float then (k', f (Some v)) :: d'
      else (k', v) :: dict_upd k f d'
  end.

(** [sorted(d.items())] and [sorted(d.keys())]: by key, ascending. *)
Fixpoint insert_item {V : Type} (kv : float * V) (l : list (float * V))
  : list (float * V) :=
  match l with
  | [] => [kv]
  | y :: l' => if (fst y <? fst kv)%float then y :: insert_item kv l'
               else kv :: l
  end.

Definition sorted_items {V : Type} (d : list (float * V)) : list (float * V) :=
  fold_right insert_item [] d.

(** ** Circular cross-sections (analyze_stl.find_cylindrical_features) *)

Record feature : Type := mkFeature {
  f_z : float;
  f_center : float * float;
  f_radius : float;
  f_variance : float;
  f_num_points : nat
}.

Section CrossSections.
Context `{Platform}.

(** [vertices.extend(facet['vertices'])] over all facets. *)
Definition all_vertices (facets : list facet) : list vec3 :=
  flat_map vertices facets.

Definition level_verts_at (verts : list vec3) (tolerance z : float) : list vec3 :=
  filter (fun v => (abs (v2 v - z) <? tolerance)%float) verts.

(** The body of [for z in z_coords]: [None] when the level is skipped. *)
Definition level_feature (verts : list vec3) (tolerance z : float)
  : result (option feature) :=
  let level_verts := level_verts_at verts tolerance z in
  if (length level_verts <? 8)%nat then Ok None
  else
    match level_verts with
    | [] => Ok None
    | _ =>
        cx <- Py.div_len (float_sum (map v0 level_verts)) (length level_verts) ;;
        cy <- Py.div_len (float_sum (map v1 level_verts)) (length level_verts) ;;
        radii <- mapM (fun v => plane_dist (v0 v) (v1 v) cx cy) level_verts ;;
        avg_radius <- Py.div_len (float_sum radii) (length radii) ;;
        sq <- mapM (fun r => py_pow2 (r - avg_radius)%float) radii ;;
        radius_variance <- Py.div_len (float_sum sq) (length radii) ;;
        if (radius_variance <? 2.0)%float && (1.0 <? avg_radius)%float then
          Ok (Some (mkFeature z (cx, cy) avg_radius radius_variance
                      (length level_verts)))
        else Ok None
    end.

Definition z_coords_of (verts : list vec3) : list float :=
  sorted_floats (float_set (map (fun v => round2 (v2 v)) verts)).

Definition find_cylindrical_features (facets : list facet) (tolerance : float)
  : result (list feature) :=
  let verts := all_vertices facets in
  foldM (fun circular_features z =>
           r <- level_feature verts tolerance z ;;
           Ok (match r with
               | Some ft => circular_features ++ [ft]
               | None => circular_features
               end))
        (z_coords_of verts) [].

(** What a cross-section sample records about its height level. *)
Definition sample_of_level (verts : list vec3) (tolerance : float) (ft : feature)
  : Prop :=
  let level_verts := level_verts_at verts tolerance (f_z ft) in
  f_num_points ft = length level_verts
  /\ exists cx cy radii,
      f_center ft = (cx, cy)
      /\ Py.div_len (float_sum (map v0 level_verts)) (length level_verts) = Ok cx
      /\ Py.div_len (float_sum (map v1 level_verts)) (length level_verts) = Ok cy
      /\ mapM (fun v => plane_dist (v0 v) (v1 v) cx cy) level_verts = Ok radii
      /\ Py.div_len (float_sum radii) (length radii) = Ok (f_radius ft).

Definition accepted_sample (verts : list vec3) (tolerance : float) (ft : feature)
  : Prop :=
  8 <= f_num_points ft
  /\ (f_variance ft <? 2.0)%float = true
  /\ (1.0 <? f_radius ft)%float = true
  /\ sample_of_level verts tolerance ft.

End CrossSections.

(** ** Radial hole candidates (better_hole_finder.find_vertical_cylinders) *)

Record radial_entry : Type := mkRadial {
  z_levels : list Z;          (* a set of integers, in insertion order *)
  positions : list vec3
}.

(** [sorted(s)] on integers. *)
Fixpoint insert_Z (x : Z) (l : list Z) : list Z :=
  match l with
  | [] => [x]
  | y :: l' => if (y <? x)%Z then y :: insert_Z x l' else x :: l
  end.

Definition sorted_Z (xs : list Z) : list Z := fold_right insert_Z [] xs.

Definition set_add_Z (x : Z) (s : list Z) : list Z :=
  if existsb (Z.eqb x) s then s else s ++ [x].

(** [max(zs) - min(zs)] on integers; ValueError on an empty sequence. *)
Definition span_Z (zs : list Z) : result Z :=
  match zs with
  | [] => Raise ValueError
  | z :: zs' => Ok (fold_left Z.max zs' z - fold_left Z.min zs' z)%Z
  end.

Section RadialCandidates.
Context `{Platform}.

(** The body of the first loop: the bucket of [v] is computed before the
    radius test, so [round] may raise even for a vertex that is skipped. *)
Definition radial_step (part_cx part_cy : float)
    (radial_analysis : list (float * radial_entry)) (v : vec3)
  : result (list (float * radial_entry)) :=
  let dx := (v0 v - part_cx)%float in
  let dy := (v1 v - part_cy)%float in
  sx <- py_pow2 dx ;;
  sy <- py_pow2 dy ;;
  r <- Py.sqrt (sx + sy)%float ;;
  n <- Py.round (r * 2)%float ;;
  r_bucket <- Py.int_truediv n 2 ;;
  if (2 <? r)%float && (r <? 12)%float then
    z_bucket <- Py.round (v2 v) ;;
    Ok (dict_upd r_bucket
          (fun o => let e := match o with
                             | Some e => e
                             | None => mkRadial [] []
                             end in
                    mkRadial (set_add_Z z_bucket (z_levels e))
                             (positions e ++ [v]))
          radial_analysis)
  else Ok radial_analysis.

(** The body of the second loop, over [sorted(radial_analysis.items())]. *)
Definition candidate_step (hole_candidates : list hole)
    (item : float * radial_entry) : result (list hole) :=
  let '(r, data) := item in
  let z_levels := sorted_Z (z_levels data) in
  if (3 <? length z_levels)%nat then
    z_span <- span_Z z_levels ;;
    let num_verts := length (positions data) in
    if (5 <? z_span)%Z && (100 <? num_verts)%nat then
      let positions := positions data in
      avg_x <- Py.div_len (float_sum (map v0 positions)) (length positions) ;;
      avg_y <- Py.div_len (float_sum (map v1 positions)) (length positions) ;;
      avg_z_min <- Py.min (map v2 positions) ;;
      avg_z_max <- Py.max (map v2 positions) ;;
      Ok (hole_candidates ++
            [mkHole avg_x avg_y avg_z_min avg_z_max
                    (avg_z_max - avg_z_min)%float r (r * 2)%float
                    (Z.of_nat num_verts)])
    else Ok hole_candidates
  else Ok hole_candidates.

Definition find_vertical_cylinders (facets : list facet) : result (list hole) :=
  let all_verts := all_vertices facets in
  part_cx <- Py.div_len (float_sum (map v0 all_verts)) (length all_verts) ;;
  part_cy <- Py.div_len (float_sum (map v1 all_verts)) (length all_verts) ;;
  radial_analysis <- foldM (radial_step part_cx part_cy) all_verts [] ;;
  foldM candidate_step (sorted_items radial_analysis) [].

(** [main] of better_hole_finder.py up to the clustering: parse, detect,
    cluster (with the default merge distance 3). *)
Definition better_hole_finder_main (file : stream) : result (list hole) :=
  facets <- parse_binary_stl file ;;
  holes <- find_vertical_cylinders facets ;;
  cluster_holes holes 3.

End RadialCandidates.

(** Test data: a ring of radius 3 at height [z], every point shared by
    three facets. *)
Definition ring_mesh (z : float) : list facet :=
  [mkFacet (0, 0, 1)%float [(3, 0, z)%float; (0, 3, z)%float; (-3, 0, z)%float];
   mkFacet (0, 0, 1)%float [(0, -3, z)%float; (3, 0, z)%float; (0, 3, z)%float];
   mkFacet (0, 0, 1)%float [(-3, 0, z)%float; (0, -3, z)%float; (3, 0, z)%float];
   mkFacet (0, 0, 1)%float [(0, 3, z)%float; (-3, 0, z)%float; (0, -3, z)%float]].

(** The smallest binary STL file: a header and a count of zero. *)
Definition empty_mesh : stream := sample_header ++ count_bytes x00.

(** ** Void sweep (sphere_sweep_detection.find_circular_voids_on_top,
       find_stacked_ports.find_circular_voids_on_back_face) *)

(** A reported location; [hy] is the second in-plane coordinate, the key
    'y' on the top face and 'z' on the back face. *)
Record void_hit : Type := mkVoid {
  hx : Z;
  hy : Z;
  center_count : nat;
  perimeter_count : nat;
  ratio : float
}.

(** [range(lo, hi, 1)]. *)
Definition py_range (lo hi : Z) : list Z :=
  map (fun i => (lo + Z.of_nat i)%Z) (seq 0 (Z.to_nat (hi - lo))).

Section VoidSweep.
Context `{Platform}.

(** The body of the innermost loop over the face's points. *)
Definition count_step (test_radius : float) (cx cy : Z) (counts : nat * nat)
    (p : float * float) : result (nat * nat) :=
  let '(center_verts, perimeter_verts) := counts in
  dist <- plane_dist (fst p) (snd p) (Py.float_of_Z cx) (Py.float_of_Z cy) ;;
  if (dist <? test_radius * 0.5)%float then Ok (S center_verts, perimeter_verts)
  else if (test_radius * 0.8 <? dist)%float && (dist <? test_radius * 1.5)%float
       then Ok (center_verts, S perimeter_verts)
       else Ok counts.

(** One grid position: the two counts, then the hole signature, whose
    perimeter threshold is 50 on the top face and 40 on the back face. *)
Definition void_at (min_perimeter : nat) (pts : list (float * float))
    (test_radius : float) (cx cy : Z) : result (option void_hit) :=
  '(center_verts, perimeter_verts) <- foldM (count_step test_radius cx cy) pts (0, 0) ;;
  if (center_verts <? 10)%nat && (min_perimeter <? perimeter_verts)%nat then
    ratio <- Py.int_truediv (Z.of_nat perimeter_verts)
                            (Z.max (Z.of_nat center_verts) 1) ;;
    Ok (Some (mkVoid cx cy center_verts perimeter_verts ratio))
  else Ok None.

Definition hit_step (min_perimeter : nat) (pts : list (float * float))
    (test_radius : float) (cx : Z) (holes_found : list void_hit) (cy : Z)
  : result (list void_hit) :=
  o <- void_at min_perimeter pts test_radius cx cy ;;
  Ok (match o with
      | Some h => holes_found ++ [h]
      | None => holes_found
      end).

(** [x_min, x_max = min(..), max(..)] and the same for the second axis. *)
Definition extents (pts : list (float * float))
  : result (float * float * float * float) :=
  x_min <- Py.min (map fst pts) ;;
  x_max <- Py.max (map fst pts) ;;
  y_min <- Py.min (map snd pts) ;;
  y_max <- Py.max (map snd pts) ;;
  Ok (x_min, x_max, y_min, y_max).

(** The body of [for cx in range(..)]: the loop over [cy], whose range is
    evaluated anew for every [cx]. *)
Definition sweep_row (min_perimeter : nat) (pts : list (float * float))
    (test_radius y_min y_max : float) (holes_found : list void_hit) (cx : Z)
  : result (list void_hit) :=
  ylo <- Py.int y_min ;;
  yhi <- Py.int y_max ;;
  foldM (hit_step min_perimeter pts test_radius cx)
        (py_range (ylo + 1) yhi) holes_found.

(** The grid search both detectors share, in 1 mm steps strictly inside
    the integer parts of the extents. *)
Definition sweep_face (min_perimeter : nat) (pts : list (float * float))
    (test_radius : float) : result (list void_hit) :=
  '(x_min, x_max, y_min, y_max) <- extents pts ;;
  xlo <- Py.int x_min ;;
  xhi <- Py.int x_max ;;
  foldM (sweep_row min_perimeter pts test_radius y_min y_max)
        (py_range (xlo + 1) xhi) [].

(** The face's vertices projected on its plane: the top face is within
    5 mm of the highest z, the back face within 2 mm of the highest y. *)
Definition top_points (verts : list vec3) (z_max : float) : list (float * float) :=
  let top_verts := filter (fun v => (z_max - 5 <? v2 v)%float) verts in
  map (fun v => (v0 v, v1 v)) top_verts.

Definition back_points (verts : list vec3) (y_max : float) : list (float * float) :=
  let back_verts := filter (fun v => (y_max - 2 <? v1 v)%float) verts in
  map (fun v => (v0 v, v2 v)) back_verts.

Definition find_circular_voids_on_top (verts : list vec3) (test_radius : float)
  : result (list void_hit) :=
  z_max <- Py.max (map v2 verts) ;;
  sweep_face 50 (top_points verts z_max) test_radius.

Definition find_circular_voids_on_back_face (verts : list vec3)
    (test_radius : float) : result (list void_hit * float) :=
  y_max <- Py.max (map v1 verts) ;;
  holes_found <- sweep_face 40 (back_points verts y_max) test_radius ;;
  Ok (holes_found, y_max).

(** The counts in the words of the specification: points closer to the
    grid position than half the radius, and points between 0.8 and 1.5
    radii from it. *)
Definition in_inner_disk (test_radius : float) (cx cy : Z) (p : float * float)
  : bool :=
  match plane_dist (fst p) (snd p) (Py.float_of_Z cx) (Py.float_of_Z cy) with
  | Ok dist => (dist <? test_radius * 0.5)%float
  | Raise _ => false
  end.

Definition in_annulus (test_radius : float) (cx cy : Z) (p : float * float)
  : bool :=
  match plane_dist (fst p) (snd p) (Py.float_of_Z cx) (Py.float_of_Z cy) with
  | Ok dist => (test_radius * 0.8 <? dist)%float && (dist <? test_radius * 1.5)%float
  | Raise _ => false
  end.

Definition inner_count (test_radius : float) (cx cy : Z)
    (pts : list (float * float)) : nat :=
  length (filter (in_inner_disk test_radius cx cy) pts).

Definition annulus_count (test_radius : float) (cx cy : Z)
    (pts : list (float * float)) : nat :=
  length (filter (in_annulus test_radius cx cy) pts).

(** The hole signature: few points inside, many on the perimeter. *)
Definition signature (min_perimeter : nat) (test_radius : float)
    (pts : list (float * float)) (cx cy : Z) : Prop :=
  inner_count test_radius cx cy pts < 10
  /\ min_perimeter < annulus_count test_radius cx cy pts.

(** The grid positions the sweep visits. *)
Definition on_grid (pts : list (float * float)) (cx cy : Z) : Prop :=
  exists x_min x_max y_min y_max xlo xhi ylo yhi,
    extents pts = Ok (x_min, x_max, y_min, y_max)
    /\ Py.int x_min = Ok xlo /\ Py.int x_max = Ok xhi
    /\ Py.int y_min = Ok ylo /\ Py.int y_max = Ok yhi
    /\ (xlo < cx < xhi)%Z /\ (ylo < cy < yhi)%Z.

Definition reported (hits : list void_hit) (cx cy : Z) : Prop :=
  exists h, In h hits /\ hx h = cx /\ hy h = cy.

End VoidSweep.

(** Test data: 41 vertices on a ring around (6, 1) and two corner vertices. *)
Definition ring_top : list vec3 :=
  repeat (3, 1, 0)%float 41 ++ [(0, 0, 0)%float; (10, 2, 0)%float].

Definition ring_back : list vec3 :=
  repeat (3, 0, 1)%float 41 ++ [(0, 0, 0)%float; (10, 0, 2)%float].

(** ** Helix detection (detect_helical.detect_helical_pattern) *)

Record cyl_vert : Type := mkCyl {
  cv_x : float;
  cv_y : float;
  cv_z : float;
  cv_r : float;
  cv_theta : float
}.

(** One entry of [z_angle_progression]. *)
Record level : Type := mkLevel {
  lv_z : float;
  avg_angle : float;
  angle_spread : float;
  num_verts : nat;
  avg_radius : float
}.

Inductive handedness : Type := RightHand | LeftHand.

(** The dictionary returned on the two classifying paths:
    [{'is_helical': True, 'pitch': .., 'radius': .., 'diameter': ..,
      'handedness': ..}] and [{'is_helical': False}]. *)
Inductive classification : Type :=
| Helical (pitch radius diameter : float) (hand : handedness)
| NotHelical.

Definition is_helical (c : classification) : bool :=
  match c with
  | Helical _ _ _ _ => true
  | NotHelical => false
  end.

(** How [main] reads the returned value:
    [if result and result.get('is_helical')]. *)
Definition reported_helical (r : option classification) : bool :=
  match r with
  | Some c => is_helical c
  | None => false
  end.

Section Helix.
Context `{Platform}.

(** The body of the loop over every vertex of every facet. *)
Definition cyl_step (cx cy : float) (radius_range : float * float)
    (cylindrical_verts : list cyl_vert) (v : vec3) : result (list cyl_vert) :=
  let dx := (v0 v - cx)%float in
  let dy := (v1 v - cy)%float in
  sx <- py_pow2 dx ;;
  sy <- py_pow2 dy ;;
  r <- Py.sqrt (sx + sy)%float ;;
  let theta := c_atan2 dy dx in
  let z := v2 v in
  if (fst radius_range <=? r)%float && (r <=? snd radius_range)%float then
    Ok (cylindrical_verts ++ [mkCyl (v0 v) (v1 v) z r theta])
  else Ok cylindrical_verts.

Definition cylindrical_verts_of (facets : list facet) (cx cy : float)
    (radius_range : float * float) : result (list cyl_vert) :=
  foldM (cyl_step cx cy radius_range) (all_vertices facets) [].

(** [z_angle_data[round(v['z'] * 5) / 5].append((v['theta'], v['r']))]. *)
Definition bucket_step (z_angle_data : list (float * list (float * float)))
    (v : cyl_vert) : result (list (float * list (float * float))) :=
  n <- Py.round (cv_z v * 5)%float ;;
  z_bucket <- Py.int_truediv n 5 ;;
  Ok (dict_upd z_bucket
        (fun o => match o with Some l => l | None => [] end
                  ++ [(cv_theta v, cv_r v)])
        z_angle_data).

Definition z_angle_data_of (cylindrical_verts : list cyl_vert)
  : result (list (float * list (float * float))) :=
  foldM bucket_step cylindrical_verts [].

(** The body of [for z in z_sorted]: a level with more than 3 vertices
    contributes an entry. *)
Definition progression_step (z_angle_progression : list level)
    (item : float * list (float * float)) : result (list level) :=
  let '(z, data) := item in
  let angles := map fst data in
  if (3 <? length angles)%nat then
    avg_angle <- Py.div_len (float_sum angles) (length angles) ;;
    hi <- Py.max angles ;;
    lo <- Py.min angles ;;
    avg_radius <- Py.div_len (float_sum (map snd data)) (length data) ;;
    Ok (z_angle_progression ++
          [mkLevel z avg_angle (hi - lo)%float (length angles) avg_radius])
  else Ok z_angle_progression.

Definition z_angle_progression_of (z_angle_data : list (float * list (float * float)))
  : result (list level) :=
  foldM progression_step (sorted_items z_angle_data) [].

(** [for i in range(len(z_angle_progression) - 1)]: the slope between two
    consecutive levels, with the angle difference brought back into
    (-pi, pi]; pairs closer than 0.01 in height are skipped. *)
Fixpoint angle_z_derivatives (z_angle_progression : list level)
  : result (list float) :=
  match z_angle_progression with
  | l1 :: ((l2 :: _) as rest) =>
      let dz := (lv_z l2 - lv_z l1)%float in
      ds <- (if (0.01 <? dz)%float then
               let da := (avg_angle l2 - avg_angle l1)%float in
               let da := if (Py.pi <? da)%float then (da - 2 * Py.pi)%float
                         else if (da <? - Py.pi)%float then (da + 2 * Py.pi)%float
                         else da in
               derivative <- Py.truediv da dz ;;
               Ok [derivative]
             else Ok []) ;;
      more <- angle_z_derivatives rest ;;
      Ok (ds ++ more)
  | _ => Ok []
  end.

(** [avg_derivative] and [derivative_variance]. *)
Definition slope_stats (angle_z_derivatives : list float)
  : result (float * float) :=
  avg_derivative <- Py.div_len (float_sum angle_z_derivatives)
                               (length angle_z_derivatives) ;;
  sq <- mapM (fun d => py_pow2 (d - avg_derivative)%float) angle_z_derivatives ;;
  derivative_variance <- Py.div_len (float_sum sq) (length angle_z_derivatives) ;;
  Ok (avg_derivative, derivative_variance).

(** The function from [if len(z_angle_progression) < 5] to its end. *)
Definition helix_of_progression (z_angle_progression : list level)
  : result (option classification) :=
  if (length z_angle_progression <? 5)%nat then Ok None
  else
    ds <- angle_z_derivatives z_angle_progression ;;
    match ds with
    | [] => Ok None
    | _ =>
        '(avg_derivative, derivative_variance) <- slope_stats ds ;;
        let is_helical := (derivative_variance <? 0.01)%float
                          && (0.01 <? abs avg_derivative)%float in
        if is_helical && (0.001 <? abs avg_derivative)%float then
          pitch <- Py.truediv (2 * Py.pi)%float (abs avg_derivative) ;;
          avg_r <- Py.div_len (float_sum (map avg_radius z_angle_progression))
                              (length z_angle_progression) ;;
          Ok (Some (Helical pitch avg_r (avg_r * 2)%float
                      (if (0 <? avg_derivative)%float then RightHand
                       else LeftHand)))
        else Ok (Some NotHelical)
    end.

Definition detect_helical_pattern (facets : list facet) (cx cy : float)
    (radius_range : float * float) : result (option classification) :=
  cylindrical_verts <- cylindrical_verts_of facets cx cy radius_range ;;
  match cylindrical_verts with
  | [] => Ok None
  | _ =>
      z_angle_data <- z_angle_data_of cylindrical_verts ;;
      if (length (sorted_items z_angle_data) <? 5)%nat then Ok None
      else
        z_angle_progression <- z_angle_progression_of z_angle_data ;;
        helix_of_progression z_angle_progression
  end.

(** The height buckets that hold data: more than 3 vertices. *)
Definition buckets_with_data (z_angle_data : list (float * list (float * float)))
  : nat :=
  length (filter (fun item => (3 <? length (snd item))%nat) z_angle_data).

End Helix.

(** Test data: levels 1 mm apart whose mean angle advances by half a
    radian per level. *)
Definition helix_levels (n : nat) : list level :=
  map (fun i => mkLevel (Py.float_of_nat i) (Py.float_of_nat i * 0.5)%float
                        0 4 3)
      (seq 0 n).

(** Test data: one facet with its vertices on the positive x axis. *)
Definition axis_facet : facet :=
  mkFacet (0, 0, 1)%float [(3, 0, 0)%float; (4, 0, 1)%float; (5, 0, 2)%float].

(** ** The order of floats

    The comparisons of primitive floats are specified by [SFcompare] on
    their [spec_float] images, which orders non-NaN values like the triples
    [float_key] under the lexicographic order. *)

Definition float_key (x : spec_float) : Z * Z * Z :=
  match x with
  | S754_nan => (0, 0, 0)
  | S754_zero _ => (0, 0, 0)
  | S754_infinity true => (-2, 0, 0)
  | S754_infinity false => (2, 0, 0)
  | S754_finite true m e => (-1, - e, Zneg m)
  | S754_finite false m e => (1, e, Zpos m)
  end%Z.

Definition key_lt (a b : Z * Z * Z) : Prop :=
  let '(a1, a2, a3) := a in
  let '(b1, b2, b3) := b in
  (a1 < b1 \/ (a1 = b1 /\ (a2 < b2 \/ (a2 = b2 /\ a3 < b3))))%Z.

Definition not_nan (x : spec_float) : Prop := x <> S754_nan.


(** ** Further definitions *)

(** A later candidate [b] is out of merge range of an earlier one [a]: the
    distance is computed and is not below the threshold. *)
Definition out_of_range `{Platform} (distance_threshold : float) (a b : hole)
  : Prop :=
  exists d, hole_dist b a = Ok d /\ (d <? distance_threshold)%float = false.

(** Test data: three holes on a line, 2 mm apart. *)
Definition three_holes : list hole :=
  [hole_at 2 0 5 20; hole_at 0 0 5 30; hole_at 4 0 5 10].

(** What a reported void records: the two counters of the sweep at its
    position, which show the hole signature, and their ratio. *)
Definition hit_recorded `{Platform} (min_perimeter : nat)
    (pts : list (float * float)) (test_radius : float) (h : void_hit) : Prop :=
  foldM (count_step test_radius (hx h) (hy h)) pts (0, 0)
    = Ok (center_count h, perimeter_count h)
  /\ center_count h < 10 /\ min_perimeter < perimeter_count h
  /\ Py.int_truediv (Z.of_nat (perimeter_count h))
                    (Z.max (Z.of_nat (center_count h)) 1) = Ok (ratio h).

(** ** The vertex-list parser (sphere_sweep_detection.parse_binary_stl,
       find_stacked_ports.parse_binary_stl)

    The same reads as the facet parser; the normal is unpacked and dropped
    and the three vertices are appended to one flat list. *)
Fixpoint read_triangle_vertices (n : nat) (f : stream) (facets : list vec3)
  : result (list vec3) :=
  match n with
  | O => Ok facets
  | S n' =>
      '(t, f') <- read_triangle f ;;
      read_triangle_vertices n' f' (facets ++ vertices t)
  end.

Definition parse_binary_stl_vertices (file : stream) : result (list vec3) :=
  let '(header, f) := read 80 file in
  let '(b, f) := read 4 f in
  num_triangles <- unpack_I b ;;
  read_triangle_vertices (Z.to_nat num_triangles) f [].

(** ** The axis estimate (detect_helical.find_cylinder_axis) *)

Definition find_cylinder_axis `{Platform} (facets : list facet)
  : result (float * float) :=
  let all_verts := all_vertices facets in
  cx <- Py.div_len (float_sum (map v0 all_verts)) (length all_verts) ;;
  cy <- Py.div_len (float_sum (map v1 all_verts)) (length all_verts) ;;
  Ok (cx, cy).

(** The vertices that support a list of hole candidates, added up. *)
Definition total_confidence (holes : list hole) : Z :=
  fold_right Z.add 0%Z (map confidence holes).

(** The vertices held by the radial buckets, added up. *)
Definition total_positions (radial_analysis : list (float * radial_entry)) : nat :=
  list_sum (map (fun item => length (positions (snd item))) radial_analysis).

(** Test data: [n] levels 1 mm apart, each with six vertices 3 mm left and
    right of the axis. *)
Definition post_mesh (n : nat) : list facet :=
  flat_map (fun i =>
              let z := Py.float_of_nat i in
              [mkFacet (0, 0, 1)%float
                 [(3, 0, z)%float; (-3, 0, z)%float; (3, 0, z)%float];
               mkFacet (0, 0, 1)%float
                 [(-3, 0, z)%float; (3, 0, z)%float; (-3, 0, z)%float]])
           (seq 0 n).

(** ** Hole positions on a half-millimetre grid (find_hole_positions.find_holes) *)



Section FindHoles.
Context `{Platform}.





End FindHoles.

(** ** Format detection (analyze_stl.is_ascii_stl, analyze_stl.parse_stl) *)

(** [needle in text] on byte strings. *)
Fixpoint prefixb (p l : list byte) : bool :=
  match p, l with
  | [], _ => true
  | _ :: _, [] => false
  | a :: p', b :: l' => Byte.eqb a b && prefixb p' l'
  end.

Fixpoint containsb (needle text : list byte) : bool :=
  prefixb needle text
  || match text with
     | [] => false
     | _ :: text' => containsb needle text'
     end.

(** The keywords ['facet normal'] and ['vertex']. *)
Definition kw_facet_normal : list byte :=
  [x66; x61; x63; x65; x74; x20; x6e; x6f; x72; x6d; x61; x6c].

Definition kw_vertex : list byte := [x76; x65; x72; x74; x65; x78].

(** [sample.decode('ascii')] succeeds when every byte is below 128; the
    bare [except] turns a failure into the answer [False]. *)
Definition is_ascii_byte (b : byte) : bool := (byteZ b <? 128)%Z.

Definition is_ascii_stl (file : stream) : bool :=
  let sample := fst (read 1000 file) in
  if forallb is_ascii_byte sample then
    containsb kw_facet_normal sample && containsb kw_vertex sample
  else false.

Section ParseStl.

(** The text parser is a regular-expression scan; it is left abstract. *)
Variable parse_ascii_stl : stream -> result (list facet).

Definition parse_stl (file : stream) : result (list facet) :=
  if is_ascii_stl file then parse_ascii_stl file else parse_binary_stl file.

End ParseStl.

(** ** Regular z spacing (analyze_stl.analyze_thread_pattern) *)

Inductive thread_verdict : Type := POSSIBLE_PRINTED_THREADS | UNCLEAR.

Section ThreadPattern.
Context `{Platform}.

(** Python's decimal [round(x, 1)], like [round2] left to the platform. *)
Variable round1 : float -> float.

(** [z_groups[round(v[2], 1)].append((v[0], v[1]))]. *)
Definition z_group_step (z_groups : list (float * list (float * float)))
    (v : vec3) : list (float * list (float * float)) :=
  dict_upd (round1 (v2 v))
           (fun o => match o with Some l => l | None => [] end ++ [(v0 v, v1 v)])
           z_groups.

(** [[z_levels[i+1] - z_levels[i] for i in range(len(z_levels) - 1)]]. *)
Fixpoint z_diffs_of (z_levels : list float) : list float :=
  match z_levels with
  | z1 :: ((z2 :: _) as rest) => (z2 - z1)%float :: z_diffs_of rest
  | _ => []
  end.

(** The counts of rounded normals the function also builds are never
    read and cannot raise; they are left out. *)
Definition analyze_thread_pattern (facets : list facet) : result thread_verdict :=
  let z_groups := fold_left z_group_step (all_vertices facets) [] in
  let z_levels := sorted_floats (map fst z_groups) in
  if (10 <? length z_levels)%nat then
    let z_diffs := z_diffs_of z_levels in
    avg_z_diff <- Py.div_len (float_sum z_diffs) (length z_diffs) ;;
    sq <- mapM (fun d => py_pow2 (d - avg_z_diff)%float) z_diffs ;;
    z_diff_variance <- Py.div_len (float_sum sq) (length z_diffs) ;;
    if (z_diff_variance <? 0.1)%float
       && ((0.3 <? avg_z_diff)%float && (avg_z_diff <? 2.0)%float)
    then Ok POSSIBLE_PRINTED_THREADS
    else Ok UNCLEAR
  else Ok UNCLEAR.

End ThreadPattern.

(** Test data: a binary file whose header reads like a text file. *)
Definition texty_header : list byte :=
  kw_facet_normal ++ [x20] ++ kw_vertex ++ repeat x20 61.

(** ** Best candidates across radii (sphere_sweep_detection.main) *)

(** [holes.sort(key=lambda h: h['perimeter_count'], reverse=True)]: stable. *)
Fixpoint insert_hit (h : void_hit) (l : list void_hit) : list void_hit :=
  match l with
  | [] => [h]
  | x :: l' =>
      if (perimeter_count h <? perimeter_count x)%nat then x :: insert_hit h l'
      else h :: l
  end.

Definition sorted_hits (holes : list void_hit) : list void_hit :=
  fold_right insert_hit [] holes.

(** A best hole: a reported void with the key 'test_radius' added. *)
Definition best_hole : Type := (void_hit * float)%type.

Fixpoint insert_best (h : best_hole) (l : list best_hole) : list best_hole :=
  match l with
  | [] => [h]
  | x :: l' =>
      if (perimeter_count (fst h) <? perimeter_count (fst x))%nat
      then x :: insert_best h l'
      else h :: l
  end.

Definition sorted_best (holes : list best_hole) : list best_hole :=
  fold_right insert_best [] holes.

(** [math.sqrt((h['x'] - bh['x'])**2 + (h['y'] - bh['y'])**2)] on integer
    coordinates: exact integer arithmetic, then the conversion to a float,
    which raises when the integer is too large for one. *)
Definition grid_dist (h bh : void_hit) : result float :=
  let n := ((hx h - hx bh) ^ 2 + (hy h - hy bh) ^ 2)%Z in
  let x := Py.float_of_Z n in
  if is_infinity x then Raise OverflowError else Py.sqrt x.

(** The loop [for bh in best_holes] with its [break]. *)
Fixpoint is_dup_of (h : void_hit) (best_holes : list best_hole) : result bool :=
  match best_holes with
  | [] => Ok false
  | bh :: rest =>
      dist <- grid_dist h (fst bh) ;;
      if (dist <? 3)%float then Ok true else is_dup_of h rest
  end.

Definition select_step (radius : float) (best_holes : list best_hole)
    (h : void_hit) : result (list best_hole) :=
  is_dup <- is_dup_of h best_holes ;;
  Ok (if is_dup : bool then best_holes else best_holes ++ [(h, radius)]).

(** [for radius, holes in all_detections.items(): for h in holes[:3]]. *)
Definition select_best (all_detections : list (float * list void_hit))
  : result (list best_hole) :=
  foldM (fun best_holes item =>
           foldM (select_step (fst item)) (firstn 3 (snd item)) best_holes)
        all_detections [].

Section SphereSweepMain.
Context `{Platform}.

(** The first loop of [main]: a radius is recorded when it detects
    something, with its holes sorted by perimeter count. *)
Definition detect_step (verts : list vec3)
    (all_detections : list (float * list void_hit)) (radius : float)
  : result (list (float * list void_hit)) :=
  holes <- find_circular_voids_on_top verts radius ;;
  Ok (match holes with
      | [] => all_detections
      | _ => all_detections ++ [(radius, sorted_hits holes)]
      end).

Definition test_radii : list float := [3.0; 4.0; 5.0; 6.0]%float.

(** [main] from the parsed vertices to the sorted list of best holes. *)
Definition sphere_sweep_best (verts : list vec3) : result (list best_hole) :=
  all_detections <- foldM (detect_step verts) test_radii [] ;;
  best_holes <- select_best all_detections ;;
  Ok (sorted_best best_holes).

Definition sphere_sweep_main (file : stream) : result (list best_hole) :=
  verts <- parse_binary_stl_vertices file ;;
  sphere_sweep_best verts.

End SphereSweepMain.

(** Two best holes are apart: their distance is computed and is not
    below 3. *)
Definition apart (a b : best_hole) : Prop :=
  exists d, grid_dist (fst a) (fst b) = Ok d /\ (d <? 3)%float = false.

(** Test data: 51 vertices on a ring around (6, 1) and two corner vertices. *)
Definition ring_top_dense : list vec3 :=
  repeat (3, 1, 0)%float 51 ++ [(0, 0, 0)%float; (10, 2, 0)%float].

(** The vertices held by the height buckets, added up. *)
Definition total_entries (z_angle_data : list (float * list (float * float))) : nat :=
  list_sum (map (fun item => length (snd item)) z_angle_data).

(** A vertex lies in the radius band. *)
Definition in_band (radius_range : float * float) (v : cyl_vert) : Prop :=
  (fst radius_range <=? cv_r v)%float = true
  /\ (cv_r v <=? snd radius_range)%float = true.

(** Test data: [n] levels 1 mm apart, each with six vertices at (3, 0). *)
Definition wall_mesh (n : nat) : list facet :=
  flat_map (fun i =>
              let z := Py.float_of_nat i in
              [mkFacet (1, 0, 0)%float
                 [(3, 0, z)%float; (3, 0, z)%float; (3, 0, z)%float];
               mkFacet (1, 0, 0)%float
                 [(3, 0, z)%float; (3, 0, z)%float; (3, 0, z)%float]])
           (seq 0 n).

(** Test data: the binary file of [post_mesh 18].  The little-endian
    binary32 patterns of 0 .. 17, of 3 and of -3. *)
Definition f32_small : list (list byte) :=
  [[x00; x00; x00; x00]; [x00; x00; x80; x3f]; [x00; x00; x00; x40];
   [x00; x00; x40; x40]; [x00; x00; x80; x40]; [x00; x00; xa0; x40];
   [x00; x00; xc0; x40]; [x00; x00; xe0; x40]; [x00; x00; x00; x41];
   [x00; x00; x10; x41]; [x00; x00; x20; x41]; [x00; x00; x30; x41];
   [x00; x00; x40; x41]; [x00; x00; x50; x41]; [x00; x00; x60; x41];
   [x00; x00; x70; x41]; [x00; x00; x80; x41]; [x00; x00; x88; x41]].

Definition post_records (z : list byte) : list byte :=
  let zero := [x00; x00; x00; x00] in
  let one := [x00; x00; x80; x3f] in
  let p3 := [x00; x00; x40; x40] in
  let m3 := [x00; x00; x40; xc0] in
  let normal := zero ++ zero ++ one in
  let right := p3 ++ zero ++ z in
  let left := m3 ++ zero ++ z in
  (normal ++ right ++ left ++ right ++ [x00; x00])
  ++ (normal ++ left ++ right ++ left ++ [x00; x00]).

Definition post_file : stream :=
  sample_header ++ [x24; x00; x00; x00] ++ flat_map post_records f32_small.

(** ** The verdict of analyze_stl.main *)

(** The four conclusions [main] can print. *)
Inductive conclusion : Type :=
| SmoothHoles             (* smooth holes that will need tapping *)
| PrintedThreads          (* possible printed threads *)
| Inconclusive            (* geometry detected, thread pattern unclear *)
| NoThreadedFeatures.     (* no clear threaded features *)

Section AnalyzeMain.
Context `{Platform}.
Variable parse_ascii_stl : stream -> result (list facet).
Variable round1 : float -> float.

(** [main] from the file to its conclusion.  The bounding-box report
    evaluates [min] and [max] of every coordinate list; the report of the
    features grouped by radius raises nothing and is left out. *)
Definition analyze_stl_main (file : stream) : result conclusion :=
  facets <- parse_stl parse_ascii_stl file ;;
  let all_verts := all_vertices facets in
  _ <- Py.min (map v0 all_verts) ;; _ <- Py.max (map v0 all_verts) ;;
  _ <- Py.min (map v1 all_verts) ;; _ <- Py.max (map v1 all_verts) ;;
  _ <- Py.min (map v2 all_verts) ;; _ <- Py.max (map v2 all_verts) ;;
  circular_features <- find_cylindrical_features facets 0.5 ;;
  thread_analysis <- analyze_thread_pattern round1 facets ;;
  match circular_features with
  | [] => Ok NoThreadedFeatures
  | _ =>
      avg_variance <- Py.div_len (float_sum (map f_variance circular_features))
                                 (length circular_features) ;;
      if (avg_variance <? 0.5)%float then Ok SmoothHoles
      else match thread_analysis with
           | POSSIBLE_PRINTED_THREADS => Ok PrintedThreads
           | UNCLEAR => Ok Inconclusive
           end
  end.

End AnalyzeMain.
(** * Properties *)

(** ** The binary parser *)

Section Parser.

Lemma byteZ_nonneg (b : byte) : (0 <= byteZ b)%Z.
Proof. unfold byteZ. lia. Qed.

Lemma le_combine_nonneg (bs : list byte) : (0 <= le_combine bs)%Z.
Proof.
  induction bs as [|b bs IH]; [simpl; lia|].
  change (le_combine (b :: bs))
    with (Z.lor (byteZ b) (Z.shiftl (le_combine bs) 8)).
  apply Z.lor_nonneg; split; [apply byteZ_nonneg|].
  apply Z.shiftl_nonneg; exact IH.
Qed.

(** A record with fewer than 48 bytes left makes one of the four
    12-byte unpacks raise. *)
Lemma read_triangle_short (f : stream) :
  length f < 48 -> read_triangle f = Raise struct_error.
Proof.
  intros Hlen.
  do 48 (destruct f as [|? f]; [reflexivity|]).
  simpl in Hlen; lia.
Qed.

(** With 48 bytes or more the record is read; the two attribute bytes
    are skipped when present. *)
Lemma read_triangle_long (f : stream) :
  48 <= length f -> read_triangle f = Ok (facet_of_record f, skipn 50 f).
Proof.
  intros Hlen.
  do 48 (destruct f as [|? f]; [simpl in Hlen; lia|]).
  destruct f as [|? [|? f]]; reflexivity.
Qed.

Lemma facet_of_record_app (body tl : list byte) :
  length body = 48 -> facet_of_record (body ++ tl) = facet_of_record body.
Proof.
  intros Hlen.
  do 48 (destruct body as [|? body]; [discriminate Hlen|]).
  destruct body; [reflexivity|discriminate Hlen].
Qed.

Lemma read_triangles_truncated (n : nat) :
  forall (f : stream) (acc : list facet),
    length f + 2 < 50 * n -> read_triangles n f acc = Raise struct_error.
Proof.
  induction n as [|n IH]; intros f acc Hlen; [simpl in Hlen; lia|].
  simpl.
  destruct (Nat.lt_ge_cases (length f) 48) as [Hs|Hl].
  - rewrite read_triangle_short by exact Hs. reflexivity.
  - rewrite read_triangle_long by exact Hl. cbn [bind].
    apply IH. rewrite length_skipn. lia.
Qed.

Lemma read_triangles_length (n : nat) :
  forall (f : stream) (acc fs : list facet),
    read_triangles n f acc = Ok fs -> length fs = length acc + n.
Proof.
  induction n as [|n IH]; intros f acc fs Hrun; simpl in Hrun.
  - injection Hrun as <-. lia.
  - destruct (read_triangle f) as [[t f']|e]; simpl in Hrun; [|discriminate].
    apply IH in Hrun. rewrite Hrun, length_app. simpl. lia.
Qed.

Lemma read_triangles_records (recs : list (list byte * list byte)) :
  forall (tl : stream) (acc : list facet),
    Forall (fun r => length (fst r) = 48 /\ length (snd r) = 2) recs ->
    read_triangles (length recs)
      (flat_map (fun r => fst r ++ snd r) recs ++ tl) acc
    = Ok (acc ++ map (fun r => facet_of_record (fst r)) recs).
Proof.
  induction recs as [|[body attr] recs IH]; intros tl acc Hwf; simpl.
  - rewrite app_nil_r. reflexivity.
  - inversion Hwf as [|? ? [Hb Ha] Hwf']; subst. simpl in Hb, Ha.
    rewrite <- !app_assoc.
    rewrite read_triangle_long by (rewrite length_app; lia).
    cbn [bind].
    rewrite facet_of_record_app by exact Hb.
    replace (skipn 50 (body ++ attr ++ flat_map (fun r => fst r ++ snd r) recs ++ tl))
      with (flat_map (fun r => fst r ++ snd r) recs ++ tl).
    + rewrite IH by exact Hwf'. rewrite <- app_assoc. reflexivity.
    + rewrite app_assoc.
      rewrite skipn_app.
      replace (50 - length (body ++ attr)) with 0 by (rewrite length_app; lia).
      rewrite skipn_all2 by (rewrite length_app; lia).
      reflexivity.
Qed.

Lemma parse_split (header cnt : list byte) (rest : stream) :
  length header = 80 -> length cnt = 4 ->
  parse_binary_stl (header ++ cnt ++ rest)
  = read_triangles (Z.to_nat (le_combine cnt)) rest [].
Proof.
  intros Hh Hc.
  assert (Hskip : skipn 80 (header ++ cnt ++ rest) = cnt ++ rest).
  { rewrite skipn_app, Hh, Nat.sub_diag. rewrite skipn_all2 by lia. reflexivity. }
  assert (Hcnt : firstn 4 (cnt ++ rest) = cnt).
  { rewrite firstn_app, Hc, Nat.sub_diag. rewrite firstn_all2 by lia.
    simpl. apply app_nil_r. }
  assert (Hrest : skipn 4 (cnt ++ rest) = rest).
  { rewrite skipn_app, Hc, Nat.sub_diag. rewrite skipn_all2 by lia. reflexivity. }
  unfold parse_binary_stl, read.
  rewrite Hskip, Hcnt, Hrest.
  do 4 (destruct cnt as [|? cnt]; [discriminate Hc|]).
  destruct cnt; [reflexivity|discriminate Hc].
Qed.

End Parser.

(** C1 (as amended).  After the 80-byte header and the 4-byte count [N],
    a file whose remaining bytes fall short of the 48 float bytes of the
    last declared record makes the parser raise struct.error; and whenever
    the parser returns, it returns exactly [N] facets. *)
Theorem parse_binary_stl_truncated (header cnt : list byte) (rest : stream) :
  length header = 80 -> length cnt = 4 ->
  ((Z.of_nat (length rest) + 2 < 50 * le_combine cnt)%Z ->
     parse_binary_stl (header ++ cnt ++ rest) = Raise struct_error)
  /\ (forall fs, parse_binary_stl (header ++ cnt ++ rest) = Ok fs ->
                 Z.of_nat (length fs) = le_combine cnt).
Proof.
  intros Hh Hc. rewrite parse_split by assumption.
  pose proof (le_combine_nonneg cnt) as Hn.
  split.
  - intros Hshort. apply read_triangles_truncated. lia.
  - intros fs Hrun. apply read_triangles_length in Hrun.
    rewrite Hrun. simpl. lia.
Qed.

Lemma parse_binary_stl_truncated_witness :
  parse_binary_stl (sample_header ++ count_bytes x02 ++ sample_body ++ [x00; x00])
  = Raise struct_error.
Proof.
  apply (parse_binary_stl_truncated sample_header (count_bytes x02)
           (sample_body ++ [x00; x00])); [reflexivity|reflexivity|].
  vm_compute. reflexivity.
Defined.

(** C1 as stated fails: a file that declares one triangle (50 bytes) but
    holds only the 48 float bytes of its record is accepted. *)
Lemma parse_binary_stl_missing_attribute_accepted :
  (Z.of_nat (length sample_body) < 50 * le_combine (count_bytes x01))%Z
  /\ parse_binary_stl (sample_header ++ count_bytes x01 ++ sample_body)
     = Ok [mkFacet (1, 2, -3)%float
             [(0, 0.5, 4)%float; (5, 6, 7)%float; (8, 9, 10)%float]].
Proof. split; vm_compute; reflexivity. Qed.

(** C2.  A well-formed file (80-byte header, 4-byte little-endian count
    [N], then [N] records of 48 float bytes and 2 attribute bytes) parses
    to exactly the [N] facets its records denote, in order; the result
    mentions neither the header nor the attribute bytes. *)
Theorem parse_binary_stl_well_formed
    (header cnt : list byte) (recs : list (list byte * list byte)) :
  length header = 80 -> length cnt = 4 ->
  le_combine cnt = Z.of_nat (length recs) ->
  Forall (fun r => length (fst r) = 48 /\ length (snd r) = 2) recs ->
  parse_binary_stl (header ++ cnt ++ flat_map (fun r => fst r ++ snd r) recs)
  = Ok (map (fun r => facet_of_record (fst r)) recs).
Proof.
  intros Hh Hc Hn Hwf. rewrite parse_split by assumption.
  rewrite Hn, Nat2Z.id.
  rewrite <- (app_nil_r (flat_map _ recs)).
  apply (read_triangles_records [] [] Hwf).
Qed.

Lemma parse_binary_stl_well_formed_witness :
  parse_binary_stl
    (sample_header ++ count_bytes x02
       ++ flat_map (fun r => fst r ++ snd r)
            [(sample_body, [x00; x00]); (sample_body, [xff; x07])])
  = Ok (map (fun r => facet_of_record (fst r))
          [(sample_body, [x00; x00]); (sample_body, [xff; x07])]).
Proof.
  apply parse_binary_stl_well_formed; [reflexivity|reflexivity|reflexivity|].
  repeat constructor.
Defined.

(** ** Clustering of bore candidates *)

Section ClusteringFacts.
Context `{Platform}.

Lemma insert_desc_perm (h : hole) (l : list hole) :
  Permutation (h :: l) (insert_desc h l).
Proof.
  induction l as [|x l IH]; simpl; [reflexivity|].
  destruct (confidence h <? confidence x)%Z; [|reflexivity].
  rewrite perm_swap. apply perm_skip. exact IH.
Qed.

Lemma sorted_desc_perm (l : list hole) : Permutation l (sorted_desc l).
Proof.
  induction l as [|h l IH]; simpl; [reflexivity|].
  rewrite <- insert_desc_perm. apply perm_skip. exact IH.
Qed.

Lemma insert_desc_sorted (h : hole) (l : list hole) :
  StronglySorted conf_ge l -> StronglySorted conf_ge (insert_desc h l).
Proof.
  induction 1 as [|x l Hs IH Hx]; simpl.
  - repeat constructor.
  - destruct (confidence h <? confidence x)%Z eqn:Hcmp.
    + constructor; [exact IH|].
      apply (Permutation_Forall (insert_desc_perm h l)).
      constructor; [unfold conf_ge; lia|exact Hx].
    + apply Z.ltb_ge in Hcmp.
      constructor; [constructor; assumption|].
      constructor; [exact Hcmp|].
      eapply Forall_impl; [|exact Hx].
      unfold conf_ge. intros; lia.
Qed.

Lemma sorted_desc_sorted (l : list hole) : StronglySorted conf_ge (sorted_desc l).
Proof.
  induction l as [|h l IH]; simpl; [constructor|].
  apply insert_desc_sorted, IH.
Qed.

(** Two lists sorted by a strict order that hold the same elements are equal. *)
Lemma strictly_sorted_unique (l1 : list hole) :
  forall l2, StronglySorted conf_gt l1 -> StronglySorted conf_gt l2 ->
             Permutation l1 l2 -> l1 = l2.
Proof.
  induction l1 as [|a l1 IH]; intros l2 H1 H2 Hp.
  - apply Permutation_nil in Hp. auto.
  - destruct l2 as [|b l2]; [apply Permutation_sym, Permutation_nil in Hp; discriminate|].
    inversion H1 as [|? ? H1s H1a]; inversion H2 as [|? ? H2s H2b]; subst.
    assert (a = b) as ->.
    { assert (Ha : In a (b :: l2)) by (eapply Permutation_in; [exact Hp|left; reflexivity]).
      assert (Hb : In b (a :: l1))
        by (eapply Permutation_in; [symmetry; exact Hp|left; reflexivity]).
      destruct Ha as [Ha|Ha]; [auto|].
      destruct Hb as [Hb|Hb]; [auto|].
      rewrite Forall_forall in H1a, H2b.
      specialize (H1a _ Hb). specialize (H2b _ Ha).
      unfold conf_gt in *. lia. }
    f_equal. apply IH; try assumption.
    eapply Permutation_cons_inv; exact Hp.
Qed.

Lemma sorted_distinct_strict (l : list hole) :
  StronglySorted conf_ge l -> NoDup (map confidence l) ->
  StronglySorted conf_gt l.
Proof.
  induction 1 as [|a l Hs IH Ha]; intros Hnd; [constructor|].
  simpl in Hnd. inversion Hnd as [|? ? Hnotin Hnd']; subst.
  constructor; [apply IH; exact Hnd'|].
  rewrite Forall_forall in *. intros x Hx.
  specialize (Ha _ Hx). unfold conf_ge, conf_gt in *.
  assert (confidence x <> confidence a).
  { intros Heq. apply Hnotin. rewrite <- Heq. apply in_map. exact Hx. }
  lia.
Qed.

(** With pairwise distinct confidences the processing order does not
    depend on the input order. *)
Lemma sorted_desc_order_independent (l1 l2 : list hole) :
  Permutation l1 l2 -> NoDup (map confidence l1) ->
  sorted_desc l1 = sorted_desc l2.
Proof.
  intros Hp Hnd.
  assert (Hp' : Permutation (sorted_desc l1) (sorted_desc l2)).
  { rewrite <- !sorted_desc_perm. exact Hp. }
  apply strictly_sorted_unique; [| |exact Hp'].
  - apply sorted_distinct_strict; [apply sorted_desc_sorted|].
    eapply Permutation_NoDup; [|exact Hnd].
    apply Permutation_map, sorted_desc_perm.
  - apply sorted_distinct_strict; [apply sorted_desc_sorted|].
    eapply Permutation_NoDup; [|exact Hnd].
    apply Permutation_map. rewrite <- sorted_desc_perm. exact Hp.
Qed.

(** What one pass of the inner loop does, whatever the order of the input:
    it stops at the first cluster within range and leaves there whichever
    of the two has the higher confidence, the cluster on a tie. *)
Lemma merge_into_some (thr : float) (h : hole) (clustered : list hole) :
  forall clustered',
    merge_into thr h clustered = Ok (Some clustered') ->
    exists pre c post d,
      clustered = pre ++ c :: post
      /\ clustered' =
           pre ++ (if (confidence h >? confidence c)%Z then h else c) :: post
      /\ hole_dist h c = Ok d /\ (d <? thr)%float = true
      /\ Forall (fun p => exists d', hole_dist h p = Ok d'
                                     /\ (d' <? thr)%float = false) pre.
Proof.
  induction clustered as [|c cs IH]; intros cl' Hrun; simpl in Hrun; [discriminate|].
  destruct (hole_dist h c) as [d|e] eqn:Hd; simpl in Hrun; [|discriminate].
  destruct (d <? thr)%float eqn:Hlt.
  - injection Hrun as <-.
    exists [], c, cs, d. repeat split; auto.
  - destruct (merge_into thr h cs) as [[r|]|e] eqn:Hrec; simpl in Hrun;
      try discriminate.
    injection Hrun as <-.
    destruct (IH r eq_refl) as (pre & c' & post & d' & -> & -> & Hd' & Hlt' & Hpre).
    exists (c :: pre), c', post, d'. repeat split; auto.
    constructor; [exists d; auto|exact Hpre].
Qed.

(** When no cluster has less confidence than the hole, the update branch
    is dead: the loop only reports whether it merged. *)
Lemma merge_into_dominated (thr : float) (h : hole) (clustered : list hole) :
  Forall (fun c => conf_ge c h) clustered ->
  merge_into thr h clustered
  = (merged <- merge_keep thr h clustered ;;
     Ok (if merged : bool then Some clustered else None)).
Proof.
  induction 1 as [|c cs Hc Hcs IH]; simpl; [reflexivity|].
  destruct (hole_dist h c) as [d|e]; simpl; [|reflexivity].
  destruct (d <? thr)%float; simpl.
  - unfold conf_ge in Hc.
    replace (confidence h >? confidence c)%Z with false; [reflexivity|].
    symmetry. rewrite Z.gtb_ltb. apply Z.ltb_ge. exact Hc.
  - rewrite IH. destruct (merge_keep thr h cs) as [[|]|e]; reflexivity.
Qed.

Lemma cluster_step_dominated (thr : float) (h : hole) (clustered : list hole) :
  Forall (fun c => conf_ge c h) clustered ->
  cluster_step thr clustered h = cluster_step_keep thr clustered h.
Proof.
  intros Hdom. unfold cluster_step, cluster_step_keep.
  rewrite merge_into_dominated by exact Hdom.
  destruct (merge_keep thr h clustered) as [[|]|e]; reflexivity.
Qed.

Lemma merge_keep_true (thr : float) (h : hole) (clustered : list hole) :
  merge_keep thr h clustered = Ok true ->
  exists c d, In c clustered /\ hole_dist h c = Ok d /\ (d <? thr)%float = true.
Proof.
  induction clustered as [|c cs IH]; intros Hrun; simpl in Hrun; [discriminate|].
  destruct (hole_dist h c) as [d|e] eqn:Hd; simpl in Hrun; [|discriminate].
  destruct (d <? thr)%float eqn:Hlt.
  - exists c, d. simpl; auto.
  - destruct (IH Hrun) as (c' & d' & Hin & Hd' & Hlt').
    exists c', d'. simpl; auto.
Qed.

Lemma subseq_In {A : Type} (l1 l2 : list A) :
  subseq l1 l2 -> forall x, In x l1 -> In x l2.
Proof.
  induction 1 as [|y l1 l2 Hs IH|y l1 l2 Hs IH]; intros x Hx; simpl in *; auto.
  destruct Hx as [->|Hx]; auto.
Qed.

Lemma subseq_sorted (l1 l2 : list hole) :
  subseq l1 l2 -> StronglySorted conf_ge l2 -> StronglySorted conf_ge l1.
Proof.
  induction 1 as [|y l1 l2 Hs IH|y l1 l2 Hs IH]; intros Hsorted.
  - constructor.
  - inversion Hsorted; subst. auto.
  - inversion Hsorted as [|? ? Hs2 Hy]; subst.
    constructor; [auto|].
    rewrite Forall_forall in *. intros x Hx. apply Hy.
    eapply subseq_In; eassumption.
Qed.

(** The outer loop on holes in descending order of confidence, started
    from clusters that dominate all of them: the update branch never
    runs, clusters are only appended, and every hole ends up within range
    of a cluster that has at least its confidence. *)
Lemma cluster_loop_sorted (thr : float) (hs : list hole) :
  forall clustered,
    StronglySorted conf_ge hs ->
    (forall c h, In c clustered -> In h hs -> conf_ge c h) ->
    foldM (cluster_step thr) hs clustered
    = foldM (cluster_step_keep thr) hs clustered
    /\ forall r,
        foldM (cluster_step_keep thr) hs clustered = Ok r ->
        exists ext,
          r = clustered ++ ext /\ subseq ext hs
          /\ forall h, In h hs ->
               exists c, In c r /\ conf_ge c h
                         /\ (c = h \/ exists d, hole_dist h c = Ok d
                                              /\ (d <? thr)%float = true).
Proof.
  induction hs as [|h hs IH]; intros clustered Hsorted Hdom.
  - split; [reflexivity|]. intros r Hr. injection Hr as <-.
    exists []. rewrite app_nil_r. repeat split; [constructor|].
    intros h [].
  - inversion Hsorted as [|? ? Hs Hh]; subst.
    rewrite Forall_forall in Hh.
    cbn [foldM].
    rewrite cluster_step_dominated
      by (apply Forall_forall; intros c Hc; apply Hdom; simpl; auto).
    destruct (cluster_step_keep thr clustered h) as [cl'|e] eqn:Hstep; cbn [bind];
      [|split; [reflexivity|discriminate]].
    unfold cluster_step_keep in Hstep.
    destruct (merge_keep thr h clustered) as [merged|e] eqn:Hm; cbn [bind] in Hstep;
      [|discriminate].
    injection Hstep as <-.
    destruct merged.
    + destruct (IH clustered Hs) as [Heq Hres].
      { intros c x Hc Hx. apply Hdom; simpl; auto. }
      split; [exact Heq|].
      intros r Hr. destruct (Hres r Hr) as (ext & -> & Hsub & Hmem).
      exists ext. repeat split; [constructor; exact Hsub|].
      intros x [<-|Hx]; [|auto].
      destruct (merge_keep_true _ _ _ Hm) as (c & d & Hc & Hd & Hlt).
      exists c. repeat split.
      * apply in_or_app; auto.
      * apply Hdom; simpl; auto.
      * right. exists d. auto.
    + destruct (IH (clustered ++ [h]) Hs) as [Heq Hres].
      { intros c x Hc Hx. apply in_app_or in Hc. destruct Hc as [Hc|[<-|[]]].
        - apply Hdom; simpl; auto.
        - apply Hh. exact Hx. }
      split; [exact Heq|].
      intros r Hr. destruct (Hres r Hr) as (ext & -> & Hsub & Hmem).
      exists (h :: ext). rewrite <- app_assoc. repeat split;
        [constructor; exact Hsub|].
      intros x [<-|Hx]; [|rewrite app_assoc; auto].
      exists h. repeat split.
      * apply in_or_app. right. apply in_or_app. left. simpl; auto.
      * unfold conf_ge. lia.
      * left. reflexivity.
Qed.

Lemma cluster_holes_unfold (holes : list hole) (thr : float) :
  cluster_holes holes thr = foldM (cluster_step thr) (sorted_desc holes) []
  /\ cluster_holes_keep holes thr
     = foldM (cluster_step_keep thr) (sorted_desc holes) [].
Proof. destruct holes; split; reflexivity. Qed.

(** The facts about a run of cluster_holes that the claims below share. *)
Lemma cluster_holes_facts (holes : list hole) (thr : float) :
  cluster_holes holes thr = cluster_holes_keep holes thr
  /\ forall r,
      cluster_holes holes thr = Ok r ->
      subseq r (sorted_desc holes)
      /\ forall h, In h holes ->
           exists c, In c r /\ conf_ge c h
                     /\ (c = h \/ exists d, hole_dist h c = Ok d
                                          /\ (d <? thr)%float = true).
Proof.
  destruct (cluster_holes_unfold holes thr) as [-> ->].
  destruct (@cluster_loop_sorted thr (sorted_desc holes) []
              (sorted_desc_sorted holes)) as [Heq Hres].
  { intros c h []. }
  split; [exact Heq|].
  intros r Hr. rewrite Heq in Hr.
  destruct (Hres r Hr) as (ext & -> & Hsub & Hmem).
  split; [exact Hsub|].
  intros h Hh. apply Hmem.
  eapply Permutation_in; [apply sorted_desc_perm|exact Hh].
Qed.

Lemma replace_duplicate_some (h : hole) (unique_holes : list hole) :
  forall unique_holes',
    replace_duplicate h unique_holes = Ok (Some unique_holes') ->
    exists pre uh post d,
      unique_holes = pre ++ uh :: post
      /\ hole_dist h uh = Ok d /\ (d <? 2)%float = true
      /\ unique_holes' =
           (if (confidence h >? confidence uh)%Z then pre ++ post ++ [h]
            else unique_holes).
Proof.
  induction unique_holes as [|c cs IH]; intros cl' Hrun; simpl in Hrun;
    [discriminate|].
  destruct (hole_dist h c) as [d|e] eqn:Hd; simpl in Hrun; [|discriminate].
  destruct (d <? 2)%float eqn:Hlt.
  - injection Hrun as <-.
    exists [], c, cs, d. repeat split; auto.
  - destruct (replace_duplicate h cs) as [[r|]|e] eqn:Hrec; simpl in Hrun;
      try discriminate.
    injection Hrun as <-.
    destruct (IH r eq_refl) as (pre & c' & post & d' & -> & Hd' & Hlt' & ->).
    exists (c :: pre), c', post, d'. repeat split; auto.
    destruct (confidence h >? confidence c')%Z; reflexivity.
Qed.

(** C6 (as amended).  When a sample is merged into an existing candidate
    (the first one whose center is closer than the merge distance), the
    candidate left in its place is, field for field, whichever of the two
    has the higher confidence -- the existing candidate on a tie; its
    height range is that contributor's own.  This holds for cluster_holes
    and for the duplicate removal of find_holes (which moves a winning
    sample to the end of the list). *)
Theorem merge_keeps_higher_confidence
    (thr : float) (h : hole) (clustered : list hole) :
  (forall clustered',
   merge_into thr h clustered = Ok (Some clustered') ->
   exists pre c post w,
     clustered = pre ++ c :: post /\ clustered' = pre ++ w :: post
     /\ (exists d, hole_dist h c = Ok d /\ (d <? thr)%float = true)
     /\ w = (if (confidence h >? confidence c)%Z then h else c)
     /\ confidence w = Z.max (confidence h) (confidence c)
     /\ ((z_min w, z_max w) = (z_min h, z_max h)
         \/ (z_min w, z_max w) = (z_min c, z_max c)))
  /\ (forall unique_holes',
      replace_duplicate h clustered = Ok (Some unique_holes') ->
      exists pre uh post,
        clustered = pre ++ uh :: post
        /\ (exists d, hole_dist h uh = Ok d /\ (d <? 2)%float = true)
        /\ unique_holes' =
             (if (confidence h >? confidence uh)%Z then pre ++ post ++ [h]
              else clustered)).
Proof.
  split.
  - intros clustered' Hrun.
    destruct (merge_into_some _ _ _ Hrun)
      as (pre & c & post & d & -> & -> & Hd & Hlt & _).
    exists pre, c, post, (if (confidence h >? confidence c)%Z then h else c).
    repeat split; eauto.
    + rewrite Z.gtb_ltb.
      destruct (confidence c <? confidence h)%Z eqn:Hcmp.
      * apply Z.ltb_lt in Hcmp. lia.
      * apply Z.ltb_ge in Hcmp. lia.
    + destruct (confidence h >? confidence c)%Z; auto.
  - intros unique_holes' Hrun.
    destruct (replace_duplicate_some _ _ Hrun)
      as (pre & uh & post & d & -> & Hd & Hlt & ->).
    exists pre, uh, post. repeat split; eauto.
Qed.

(** C7.  On two orderings of the same samples, the candidate centers
    agree up to the merge distance: every candidate of one run has a
    candidate of the other run at the same center or closer than the
    threshold.  When no two samples tie in confidence, the processing
    order is the same and the two runs return the same list. *)
Theorem cluster_holes_order_independent
    (l1 l2 : list hole) (thr : float) (r1 r2 : list hole) :
  Permutation l1 l2 ->
  cluster_holes l1 thr = Ok r1 -> cluster_holes l2 thr = Ok r2 ->
  (forall c1, In c1 r1 -> exists c2, In c2 r2 /\ near thr c1 c2)
  /\ (forall c2, In c2 r2 -> exists c1, In c1 r1 /\ near thr c2 c1)
  /\ (NoDup (map confidence l1) -> r1 = r2).
Proof.
  intros Hp H1 H2.
  destruct (cluster_holes_facts l1 thr) as [_ F1].
  destruct (cluster_holes_facts l2 thr) as [_ F2].
  destruct (F1 r1 H1) as [Hs1 Hm1]. destruct (F2 r2 H2) as [Hs2 Hm2].
  assert (Hnear : forall h c, (c = h \/ exists d, hole_dist h c = Ok d
                                               /\ (d <? thr)%float = true) ->
                              near thr h c).
  { intros h c [->|Hd]; [left; auto|right; exact Hd]. }
  repeat split.
  - intros c1 Hc1.
    assert (Hin : In c1 l2).
    { eapply Permutation_in; [exact Hp|].
      eapply Permutation_in; [symmetry; apply sorted_desc_perm|].
      eapply subseq_In; eassumption. }
    destruct (Hm2 c1 Hin) as (c2 & Hc2 & _ & Hd). eauto.
  - intros c2 Hc2.
    assert (Hin : In c2 l1).
    { eapply Permutation_in; [symmetry; exact Hp|].
      eapply Permutation_in; [symmetry; apply sorted_desc_perm|].
      eapply subseq_In; eassumption. }
    destruct (Hm1 c2 Hin) as (c1 & Hc1 & _ & Hd). eauto.
  - intros Hnd.
    destruct (cluster_holes_unfold l1 thr) as [E1 _].
    destruct (cluster_holes_unfold l2 thr) as [E2 _].
    rewrite E1 in H1. rewrite E2 in H2.
    rewrite (sorted_desc_order_independent Hp Hnd) in H1.
    congruence.
Qed.

(** C10.  The update branch of cluster_holes is dead code (the function
    equals the one without it); every returned candidate is one of the
    input holes, unmodified, the returned list is a subsequence of the
    holes in descending confidence order, and every input hole lies within
    range of a returned candidate of at least its confidence. *)
Theorem cluster_holes_candidates_unmodified (holes : list hole) (thr : float) :
  cluster_holes holes thr = cluster_holes_keep holes thr
  /\ forall r,
      cluster_holes holes thr = Ok r ->
      subseq r (sorted_desc holes)
      /\ Forall (fun c => In c holes) r
      /\ StronglySorted conf_ge r
      /\ forall h, In h holes ->
           exists c, In c r /\ conf_ge c h
                     /\ (c = h \/ exists d, hole_dist h c = Ok d
                                          /\ (d <? thr)%float = true).
Proof.
  destruct (cluster_holes_facts holes thr) as [Heq F].
  split; [exact Heq|].
  intros r Hr. destruct (F r Hr) as [Hsub Hmem].
  repeat split; try assumption.
  - apply Forall_forall. intros c Hc.
    eapply Permutation_in; [symmetry; apply sorted_desc_perm|].
    eapply subseq_In; eassumption.
  - eapply subseq_sorted; [exact Hsub|apply sorted_desc_sorted].
Qed.

End ClusteringFacts.

Lemma merge_keeps_higher_confidence_witness :
  exists pre c post w,
    [hole_at 0 0 5 10] = pre ++ c :: post
    /\ [hole_at 0 0 5 10] = pre ++ w :: post
    /\ (exists d, hole_dist (hole_at 1 3 9 5) c = Ok d /\ (d <? 3)%float = true)
    /\ w = (if (confidence (hole_at 1 3 9 5) >? confidence c)%Z
            then hole_at 1 3 9 5 else c)
    /\ confidence w = Z.max (confidence (hole_at 1 3 9 5)) (confidence c)
    /\ ((z_min w, z_max w) = (z_min (hole_at 1 3 9 5), z_max (hole_at 1 3 9 5))
        \/ (z_min w, z_max w) = (z_min c, z_max c)).
Proof.
  apply (proj1 (merge_keeps_higher_confidence 3 (hole_at 1 3 9 5)
                  [hole_at 0 0 5 10]) [hole_at 0 0 5 10]).
  vm_compute. reflexivity.
Defined.

(** C6 as stated fails: a sample spanning heights 3..9 merged into a
    candidate spanning 0..5 leaves the range 0..5, not the union 0..9. *)
Lemma merged_height_range_not_extended :
  cluster_holes [hole_at 0 0 5 10; hole_at 1 3 9 5] 3 = Ok [hole_at 0 0 5 10]
  /\ merge_into 3 (hole_at 1 3 9 5) [hole_at 0 0 5 10]
     = Ok (Some [hole_at 0 0 5 10])
  /\ z_max (hole_at 0 0 5 10) = 5%float
  /\ (z_max (hole_at 0 0 5 10) <? z_max (hole_at 1 3 9 5))%float = true.
Proof. repeat split; vm_compute; reflexivity. Qed.

Lemma cluster_holes_order_independent_witness :
  (forall c1, In c1 [hole_at 0 0 5 30; hole_at 4 0 5 10] ->
     exists c2, In c2 [hole_at 0 0 5 30; hole_at 4 0 5 10] /\ near 3 c1 c2)
  /\ (forall c2, In c2 [hole_at 0 0 5 30; hole_at 4 0 5 10] ->
     exists c1, In c1 [hole_at 0 0 5 30; hole_at 4 0 5 10] /\ near 3 c2 c1)
  /\ (NoDup (map confidence [hole_at 2 0 5 20; hole_at 0 0 5 30; hole_at 4 0 5 10])
      -> [hole_at 0 0 5 30; hole_at 4 0 5 10]
         = [hole_at 0 0 5 30; hole_at 4 0 5 10]).
Proof.
  apply (@cluster_holes_order_independent exact_platform
           [hole_at 2 0 5 20; hole_at 0 0 5 30; hole_at 4 0 5 10]
           (rev [hole_at 2 0 5 20; hole_at 0 0 5 30; hole_at 4 0 5 10]) 3).
  - apply Permutation_rev.
  - vm_compute. reflexivity.
  - vm_compute. reflexivity.
Defined.

Lemma cluster_holes_candidates_unmodified_witness :
  subseq [hole_at 0 0 5 30; hole_at 4 0 5 10]
         (sorted_desc [hole_at 2 0 5 20; hole_at 0 0 5 30; hole_at 4 0 5 10])
  /\ Forall (fun c => In c [hole_at 2 0 5 20; hole_at 0 0 5 30; hole_at 4 0 5 10])
            [hole_at 0 0 5 30; hole_at 4 0 5 10]
  /\ StronglySorted conf_ge [hole_at 0 0 5 30; hole_at 4 0 5 10]
  /\ forall h, In h [hole_at 2 0 5 20; hole_at 0 0 5 30; hole_at 4 0 5 10] ->
       exists c, In c [hole_at 0 0 5 30; hole_at 4 0 5 10] /\ conf_ge c h
                 /\ (c = h \/ exists d, hole_dist h c = Ok d
                                      /\ (d <? 3)%float = true).
Proof.
  apply (proj2 (@cluster_holes_candidates_unmodified exact_platform
                  [hole_at 2 0 5 20; hole_at 0 0 5 30; hole_at 4 0 5 10] 3)).
  vm_compute. reflexivity.
Defined.

(** With ties in confidence the stable sort keeps the input order, and the
    number of candidates can then depend on it (the centers still agree up
    to the merge distance, as C7 states). *)
Example cluster_holes_ties_follow_input_order :
  cluster_holes [hole_at 0 0 5 7; hole_at 2 0 5 7; hole_at 4 0 5 7] 3
    = Ok [hole_at 0 0 5 7; hole_at 4 0 5 7]
  /\ cluster_holes [hole_at 2 0 5 7; hole_at 0 0 5 7; hole_at 4 0 5 7] 3
    = Ok [hole_at 2 0 5 7].
Proof. split; vm_compute; reflexivity. Qed.

(** ** Circular cross-sections *)

Section CrossSectionFacts.
Context `{Platform}.

Lemma level_feature_some (verts : list vec3) (tolerance z : float) (ft : feature) :
  level_feature verts tolerance z = Ok (Some ft) ->
  accepted_sample verts tolerance ft.
Proof.
  unfold level_feature, accepted_sample, sample_of_level.
  destruct (length (level_verts_at verts tolerance z) <? 8)%nat eqn:Hlen;
    [discriminate|].
  apply Nat.ltb_ge in Hlen.
  destruct (level_verts_at verts tolerance z) as [|v lv] eqn:Hlv; [discriminate|].
  destruct (Py.div_len (float_sum (map v0 (v :: lv))) (length (v :: lv)))
    as [cx|e] eqn:Hcx; cbn [bind]; [|discriminate].
  destruct (Py.div_len (float_sum (map v1 (v :: lv))) (length (v :: lv)))
    as [cy|e] eqn:Hcy; cbn [bind]; [|discriminate].
  destruct (mapM (fun v => plane_dist (v0 v) (v1 v) cx cy) (v :: lv))
    as [radii|e] eqn:Hr; cbn [bind]; [|discriminate].
  destruct (Py.div_len (float_sum radii) (length radii))
    as [avg|e] eqn:Havg; cbn [bind]; [|discriminate].
  destruct (mapM (fun r => py_pow2 (r - avg)%float) radii)
    as [sq|e] eqn:Hsq; cbn [bind]; [|discriminate].
  destruct (Py.div_len (float_sum sq) (length radii))
    as [var|e] eqn:Hvar; cbn [bind]; [|discriminate].
  destruct (var <? 2.0)%float eqn:Hv; [|discriminate].
  destruct (1.0 <? avg)%float eqn:Ha; [|discriminate].
  cbn [andb]. intros Heq. injection Heq as <-. cbn [f_z f_num_points f_variance
    f_radius f_center].
  rewrite Hlv.
  repeat split; try assumption.
  exists cx, cy, radii. repeat split; assumption.
Qed.

Lemma level_feature_skipped (verts : list vec3) (tolerance z : float) :
  length (level_verts_at verts tolerance z) < 8 ->
  level_feature verts tolerance z = Ok None.
Proof.
  intros Hlen. unfold level_feature.
  apply Nat.ltb_lt in Hlen. rewrite Hlen. reflexivity.
Qed.

Lemma features_loop (verts : list vec3) (tolerance : float) (zs : list float) :
  forall acc fs,
    Forall (accepted_sample verts tolerance) acc ->
    foldM (fun circular_features z =>
             r <- level_feature verts tolerance z ;;
             Ok (match r with
                 | Some ft => circular_features ++ [ft]
                 | None => circular_features
                 end)) zs acc = Ok fs ->
    Forall (accepted_sample verts tolerance) fs.
Proof.
  induction zs as [|z zs IH]; intros acc fs Hacc Hrun; cbn [foldM] in Hrun.
  - injection Hrun as <-. exact Hacc.
  - destruct (level_feature verts tolerance z) as [[ft|]|e] eqn:Hz;
      cbn [bind] in Hrun; [| |discriminate].
    + apply (IH (acc ++ [ft]) fs); [|exact Hrun].
      apply Forall_app; split; [exact Hacc|].
      constructor; [|constructor].
      eapply level_feature_some; exact Hz.
    + apply (IH _ _ Hacc Hrun).
Qed.

End CrossSectionFacts.

(** C5.  Every sample returned by find_cylindrical_features has at least
    8 points, a radius variance below 2.0 and an average radius above 1.0,
    where the radius is the mean distance of the level's points from their
    mean center; and a level with fewer than 8 points yields neither a
    sample nor an error. *)
Theorem find_cylindrical_features_samples `{Platform}
    (facets : list facet) (tolerance : float) :
  (forall fs, find_cylindrical_features facets tolerance = Ok fs ->
              Forall (accepted_sample (all_vertices facets) tolerance) fs)
  /\ (forall z, length (level_verts_at (all_vertices facets) tolerance z) < 8 ->
                level_feature (all_vertices facets) tolerance z = Ok None).
Proof.
  split.
  - intros fs Hrun. unfold find_cylindrical_features in Hrun.
    eapply features_loop; [|exact Hrun]. constructor.
  - intros z Hlen. apply level_feature_skipped. exact Hlen.
Qed.

Example ring_mesh_sample :
  find_cylindrical_features (ring_mesh 1) 0.5
  = Ok [mkFeature 1 (0, 0)%float 3 0 12].
Proof. vm_compute. reflexivity. Qed.

Lemma find_cylindrical_features_samples_witness :
  Forall (accepted_sample (all_vertices (ring_mesh 1)) 0.5)
         [mkFeature 1 (0, 0)%float 3 0 12].
Proof.
  apply (proj1 (@find_cylindrical_features_samples exact_platform (ring_mesh 1) 0.5)).
  vm_compute. reflexivity.
Defined.

(** ** The empty mesh *)

(** C9 (the code departs from it).  On the 84-byte file that declares
    zero triangles the parser returns no facet and the point cloud is
    empty, yet find_vertical_cylinders divides by the number of vertices
    and raises ZeroDivisionError, and so does the script's pipeline;
    find_cylindrical_features and cluster_holes do return empty lists. *)
Theorem empty_mesh_divides_by_zero `{Platform} :
  parse_binary_stl empty_mesh = Ok []
  /\ all_vertices [] = []
  /\ find_vertical_cylinders [] = Raise ZeroDivisionError
  /\ better_hole_finder_main empty_mesh = Raise ZeroDivisionError
  /\ find_cylindrical_features [] 0.5 = Ok []
  /\ cluster_holes [] 3 = Ok [].
Proof. repeat split. Qed.

(** ** The order of floats *)

Ltac key_case :=
  eexists; (split; [reflexivity|]); split; split; intros;
  first [reflexivity | discriminate | lia | exfalso; lia].

Lemma SFcompare_key (x y : spec_float) :
  not_nan x -> not_nan y ->
  exists c, SFcompare x y = Some c
            /\ (c = Lt <-> key_lt (float_key x) (float_key y))
            /\ (c = Gt <-> key_lt (float_key y) (float_key x)).
Proof.
  unfold not_nan. intros Hx Hy.
  destruct x as [sx|sx| |sx mx ex], y as [sy|sy| |sy my ey];
    try congruence; try destruct sx; try destruct sy;
    cbn [SFcompare float_key key_lt]; try key_case.
  - rewrite Pos.compare_cont_spec. cbn [Pos.switch_Eq].
    destruct (Z.compare_spec ex ey) as [->|Hlt|Hlt];
      [destruct (Pos.compare_spec mx my) as [->|Hm|Hm]| |];
      cbn [CompOpp]; key_case.
  - rewrite Pos.compare_cont_spec. cbn [Pos.switch_Eq].
    destruct (Z.compare_spec ex ey) as [->|Hlt|Hlt];
      [destruct (Pos.compare_spec mx my) as [->|Hm|Hm]| |];
      key_case.
Qed.

Lemma SFcompare_nan (x y : spec_float) :
  SFcompare x y <> None -> not_nan x /\ not_nan y.
Proof.
  unfold not_nan. destruct x, y; cbn [SFcompare]; intros Hc; split; congruence.
Qed.

Lemma ltb_key (x y : float) :
  (x <? y)%float = true <->
  not_nan (Prim2SF x) /\ not_nan (Prim2SF y)
  /\ key_lt (float_key (Prim2SF x)) (float_key (Prim2SF y)).
Proof.
  rewrite ltb_spec. unfold SFltb. split.
  - intros Hlt.
    destruct (SFcompare (Prim2SF x) (Prim2SF y)) as [c|] eqn:Hc; [|discriminate].
    destruct (@SFcompare_nan (Prim2SF x) (Prim2SF y)) as [Hx Hy]; [congruence|].
    destruct (SFcompare_key Hx Hy) as (c' & Hc' & Hl & _).
    repeat split; try assumption. apply Hl.
    destruct c; try discriminate. congruence.
  - intros (Hx & Hy & Hk).
    destruct (SFcompare_key Hx Hy) as (c & -> & Hl & _).
    apply Hl in Hk. rewrite Hk. reflexivity.
Qed.

Lemma eqb_key (x y : float) :
  (x =? y)%float = true ->
  ~ key_lt (float_key (Prim2SF y)) (float_key (Prim2SF x)).
Proof.
  rewrite eqb_spec. unfold SFeqb. intros Heq.
  destruct (SFcompare (Prim2SF x) (Prim2SF y)) as [c|] eqn:Hc; [|discriminate].
  destruct (@SFcompare_nan (Prim2SF x) (Prim2SF y)) as [Hx Hy]; [congruence|].
  destruct (SFcompare_key Hx Hy) as (c' & Hc' & _ & Hg).
  intros Hk. apply Hg in Hk.
  rewrite Hc in Hc'. injection Hc' as <-. subst c. discriminate.
Qed.

Lemma key_lt_trans (a b c : Z * Z * Z) : key_lt a b -> key_lt b c -> key_lt a c.
Proof.
  destruct a as [[a1 a2] a3], b as [[b1 b2] b3], c as [[c1 c2] c3].
  unfold key_lt. lia.
Qed.

Lemma key_lt_irrefl (a : Z * Z * Z) : ~ key_lt a a.
Proof. destruct a as [[a1 a2] a3]. unfold key_lt. lia. Qed.

(** [<] on floats is transitive. *)
Lemma float_ltb_trans (x y z : float) :
  (x <? y)%float = true -> (y <? z)%float = true -> (x <? z)%float = true.
Proof.
  rewrite !ltb_key. intros (Hx & _ & H1) (_ & Hz & H2).
  repeat split; try assumption. eapply key_lt_trans; eassumption.
Qed.

(** A float above another is not equal to it. *)
Lemma float_ltb_neq (x y : float) :
  (x <? y)%float = true -> (y =? x)%float = false.
Proof.
  intros H1. apply ltb_key in H1. destruct H1 as (_ & _ & H1).
  destruct (y =? x)%float eqn:Heq; [|reflexivity].
  apply eqb_key in Heq. contradiction.
Qed.

(** ** Void sweep *)

Section VoidSweepFacts.
Context `{Platform}.

Lemma py_range_In (lo hi c : Z) : In c (py_range lo hi) <-> (lo <= c < hi)%Z.
Proof.
  unfold py_range. rewrite in_map_iff. split.
  - intros (i & <- & Hi). apply in_seq in Hi. lia.
  - intros Hc. exists (Z.to_nat (c - lo)). split; [lia|].
    apply in_seq. lia.
Qed.

(** Unless 0.8 radii fall below half a radius, as computed, the inner
    disk and the annulus are disjoint, and the two counters of the loop
    are the two counts. *)
Lemma count_loop (R : float) (cx cy : Z) (pts : list (float * float)) :
  (R * 0.8 <? R * 0.5)%float = false ->
  forall c0 p0 c p,
    foldM (count_step R cx cy) pts (c0, p0) = Ok (c, p) ->
    c = c0 + inner_count R cx cy pts /\ p = p0 + annulus_count R cx cy pts.
Proof.
  intros HR. unfold inner_count, annulus_count.
  induction pts as [|q pts IH]; intros c0 p0 c p Hrun; cbn [foldM] in Hrun.
  - injection Hrun as <- <-. simpl. lia.
  - unfold count_step at 1 in Hrun. cbn [filter].
    unfold in_inner_disk at 1, in_annulus at 1.
    destruct (plane_dist (fst q) (snd q) (Py.float_of_Z cx) (Py.float_of_Z cy))
      as [d|e]; cbn [bind] in Hrun; [|discriminate].
    destruct (d <? R * 0.5)%float eqn:Hin.
    + replace (R * 0.8 <? d)%float with false
        by (destruct (R * 0.8 <? d)%float eqn:Hout; [|reflexivity];
            rewrite (float_ltb_trans Hout Hin) in HR; discriminate HR).
      cbn [andb]. cbn [bind] in Hrun. apply IH in Hrun. cbn [length]. lia.
    + destruct ((R * 0.8 <? d)%float && (d <? R * 1.5)%float);
        cbn [bind] in Hrun; apply IH in Hrun; cbn [length]; lia.
Qed.

Lemma void_at_spec (mp : nat) (R : float) (pts : list (float * float)) (cx cy : Z) :
  (R * 0.8 <? R * 0.5)%float = false ->
  forall o, void_at mp pts R cx cy = Ok o ->
            match o with
            | Some h => hx h = cx /\ hy h = cy /\ signature mp R pts cx cy
            | None => ~ signature mp R pts cx cy
            end.
Proof.
  intros HR o Hrun. unfold void_at in Hrun.
  destruct (foldM (count_step R cx cy) pts (0, 0)) as [[c p]|e] eqn:Hc;
    cbn [bind] in Hrun; [|discriminate].
  apply (count_loop _ _ _ HR) in Hc. destruct Hc as [-> ->].
  unfold signature. cbn [Nat.add] in *.
  destruct (inner_count R cx cy pts <? 10)%nat eqn:Hi;
    destruct (mp <? annulus_count R cx cy pts)%nat eqn:Ha; cbn [andb] in Hrun;
    try (injection Hrun as <-;
         apply Nat.ltb_ge in Hi || apply Nat.ltb_ge in Ha; lia).
  destruct (Py.int_truediv _ _) as [r|e]; cbn [bind] in Hrun; [|discriminate].
  injection Hrun as <-. cbn [hx hy].
  apply Nat.ltb_lt in Hi, Ha. auto.
Qed.

Lemma inner_sweep (mp : nat) (R : float) (pts : list (float * float)) (cx : Z)
    (ys : list Z) :
  (R * 0.8 <? R * 0.5)%float = false ->
  forall acc r,
    foldM (hit_step mp pts R cx) ys acc = Ok r ->
    exists new,
      r = acc ++ new
      /\ (forall h, In h new -> hx h = cx /\ In (hy h) ys
                                /\ signature mp R pts cx (hy h))
      /\ (forall cy, In cy ys -> signature mp R pts cx cy ->
                     exists h, In h new /\ hx h = cx /\ hy h = cy).
Proof.
  intros HR. induction ys as [|y ys IH]; intros acc r Hrun; cbn [foldM] in Hrun.
  - injection Hrun as <-. exists []. rewrite app_nil_r.
    repeat split; intros; contradiction.
  - unfold hit_step at 1 in Hrun.
    destruct (void_at mp pts R cx y) as [o|e] eqn:Hv; cbn [bind] in Hrun;
      [|discriminate].
    pose proof (void_at_spec _ _ _ _ HR Hv) as Ho.
    apply IH in Hrun. destruct Hrun as (new & -> & Hsound & Hcomplete).
    destruct o as [h0|].
    + destruct Ho as (Hx & Hy & Hsig).
      exists (h0 :: new). rewrite <- app_assoc. split; [reflexivity|]. split.
      * intros h [<-|Hin].
        -- rewrite Hy. split; [assumption|split; [left; reflexivity|assumption]].
        -- destruct (Hsound h Hin) as (Hhx & Hhy & Hhs).
           split; [assumption|split; [right; assumption|assumption]].
      * intros cy [<-|Hin] Hs; [exists h0; simpl; auto|].
        destruct (Hcomplete cy Hin Hs) as (h & Hh & Hhx & Hhy).
        exists h; simpl; auto.
    + exists new. split; [reflexivity|]. split.
      * intros h Hin. destruct (Hsound h Hin) as (Hhx & Hhy & Hhs).
        split; [assumption|split; [right; assumption|assumption]].
      * intros cy [<-|Hin] Hs; [contradiction|]. apply Hcomplete; assumption.
Qed.

Lemma outer_sweep (mp : nat) (R : float) (pts : list (float * float))
    (y_min y_max : float) (ylo yhi : Z) (xs : list Z) :
  (R * 0.8 <? R * 0.5)%float = false ->
  Py.int y_min = Ok ylo -> Py.int y_max = Ok yhi ->
  forall acc r,
    foldM (sweep_row mp pts R y_min y_max) xs acc = Ok r ->
    exists new,
      r = acc ++ new
      /\ (forall h, In h new -> signature mp R pts (hx h) (hy h))
      /\ (forall cx cy, In cx xs -> In cy (py_range (ylo + 1) yhi) ->
                        signature mp R pts cx cy ->
                        exists h, In h new /\ hx h = cx /\ hy h = cy).
Proof.
  intros HR Hlo Hhi.
  induction xs as [|x xs IH]; intros acc r Hrun; cbn [foldM] in Hrun.
  - injection Hrun as <-. exists []. rewrite app_nil_r.
    split; [reflexivity|]. split; intros; contradiction.
  - unfold sweep_row at 1 in Hrun. rewrite Hlo, Hhi in Hrun. cbn [bind] in Hrun.
    destruct (foldM (hit_step mp pts R x) (py_range (ylo + 1) yhi) acc)
      as [acc'|e] eqn:Hin; cbn [bind] in Hrun; [|discriminate].
    destruct (inner_sweep _ _ _ _ HR _ Hin) as (new1 & -> & Hs1 & Hc1).
    destruct (IH _ _ Hrun) as (new2 & -> & Hs2 & Hc2).
    exists (new1 ++ new2). rewrite app_assoc. split; [reflexivity|]. split.
    + intros h Hh. apply in_app_or in Hh. destruct Hh as [Hh|Hh].
      * destruct (Hs1 h Hh) as (Hhx & _ & Hsig). rewrite Hhx. exact Hsig.
      * apply Hs2. exact Hh.
    + intros cx cy [<-|Hcx] Hcy Hsig.
      * destruct (Hc1 cy Hcy Hsig) as (h & Hh & Hhx & Hhy).
        exists h. split; [apply in_or_app; left; exact Hh|auto].
      * destruct (Hc2 cx cy Hcx Hcy Hsig) as (h & Hh & Hhx & Hhy).
        exists h. split; [apply in_or_app; right; exact Hh|auto].
Qed.

(** The grid search reports a position exactly when it shows the hole
    signature. *)
Lemma sweep_face_hits (mp : nat) (R : float) (pts : list (float * float))
    (hits : list void_hit) :
  (R * 0.8 <? R * 0.5)%float = false ->
  sweep_face mp pts R = Ok hits ->
  forall cx cy, on_grid pts cx cy ->
                (reported hits cx cy <-> signature mp R pts cx cy).
Proof.
  intros HR Hrun cx cy
    (x_min & x_max & y_min & y_max & xlo & xhi & ylo & yhi
     & Hext & Hxlo & Hxhi & Hylo & Hyhi & Hcx & Hcy).
  unfold sweep_face in Hrun. rewrite Hext in Hrun. cbn [bind] in Hrun.
  rewrite Hxlo, Hxhi in Hrun. cbn [bind] in Hrun.
  destruct (@outer_sweep mp R pts y_min y_max ylo yhi _ HR Hylo Hyhi _ _ Hrun) as (new & -> & Hs & Hc).
  cbn [app]. unfold reported. split.
  - intros (h & Hh & <- & <-). apply Hs. exact Hh.
  - intros Hsig. apply Hc; [apply py_range_In; lia|apply py_range_In; lia|exact Hsig].
Qed.

End VoidSweepFacts.

(** C8 (as amended).  For a sampling radius whose 0.8-fold is not below
    its half, as computed (so not a negative radius), and every grid
    position, the back-face detector reports the position if and only if
    fewer than 10 face points lie in the inner disk and more than 40 in
    the annulus; the top-face detector reports it if and only if fewer
    than 10 lie in the inner disk and more than 50 in the annulus. *)
Theorem void_hit_iff_signature `{Platform} (verts : list vec3) (R : float) :
  (R * 0.8 <? R * 0.5)%float = false ->
  (forall hits y_max,
      find_circular_voids_on_back_face verts R = Ok (hits, y_max) ->
      forall cx cz, on_grid (back_points verts y_max) cx cz ->
        (reported hits cx cz <->
         inner_count R cx cz (back_points verts y_max) < 10
         /\ 40 < annulus_count R cx cz (back_points verts y_max)))
  /\ (forall hits z_max,
        find_circular_voids_on_top verts R = Ok hits ->
        Py.max (map v2 verts) = Ok z_max ->
        forall cx cy, on_grid (top_points verts z_max) cx cy ->
          (reported hits cx cy <->
           inner_count R cx cy (top_points verts z_max) < 10
           /\ 50 < annulus_count R cx cy (top_points verts z_max))).
Proof.
  intros HR. split.
  - intros hits y_max Hrun cx cz Hgrid.
    unfold find_circular_voids_on_back_face in Hrun.
    destruct (Py.max (map v1 verts)) as [ym|e]; cbn [bind] in Hrun; [|discriminate].
    destruct (sweep_face 40 (back_points verts ym) R) as [hs|e] eqn:Hsweep;
      cbn [bind] in Hrun; [|discriminate].
    injection Hrun as <- <-.
    apply (sweep_face_hits _ HR Hsweep Hgrid).
  - intros hits z_max Hrun Hmax cx cy Hgrid.
    unfold find_circular_voids_on_top in Hrun.
    rewrite Hmax in Hrun. cbn [bind] in Hrun.
    apply (sweep_face_hits _ HR Hrun Hgrid).
Qed.

Lemma ring_back_on_grid : on_grid (back_points ring_back 0) 6 1.
Proof.
  exists 0%float, 10%float, 0%float, 2%float, 0%Z, 10%Z, 0%Z, 2%Z.
  repeat split; try (vm_compute; reflexivity); lia.
Qed.

Lemma void_hit_iff_signature_witness :
  reported [mkVoid 6 1 0 42 42; mkVoid 7 1 0 42 42] 6 1 <->
  inner_count 3 6 1 (back_points ring_back 0) < 10
  /\ 40 < annulus_count 3 6 1 (back_points ring_back 0).
Proof.
  refine (proj1 (@void_hit_iff_signature exact_platform ring_back 3 _) _ _ _ 6%Z 1%Z _).
  - vm_compute. reflexivity.
  - vm_compute. reflexivity.
  - exact ring_back_on_grid.
Defined.

(** The radii the two scripts sweep with meet the condition on the radius. *)
Example script_radii_ordered :
  forallb (fun R => negb (R * 0.8 <? R * 0.5)%float)
          [2.5; 3; 3.5; 4; 5; 6]%float = true.
Proof. reflexivity. Qed.

(** C8 as stated fails on the top face: at the grid position (6, 1) the
    inner disk holds no point and the annulus 42 (> 40), yet the detector,
    whose threshold is 50, reports nothing. *)
Lemma top_face_needs_more_than_50 :
  find_circular_voids_on_top ring_top 3 = Ok []
  /\ on_grid (top_points ring_top 0) 6 1
  /\ inner_count 3 6 1 (top_points ring_top 0) = 0
  /\ annulus_count 3 6 1 (top_points ring_top 0) = 42.
Proof.
  split; [vm_compute; reflexivity|]. split.
  - exists 0%float, 10%float, 0%float, 2%float, 0%Z, 10%Z, 0%Z, 2%Z.
    repeat split; try (vm_compute; reflexivity); lia.
  - split; vm_compute; reflexivity.
Qed.

(** ** Helix detection *)

Section HelixFacts.
Context `{Platform}.

Lemma filter_length_perm {A : Type} (f : A -> bool) (l l' : list A) :
  Permutation l l' -> length (filter f l) = length (filter f l').
Proof.
  induction 1 as [|x l l' Hp IH|x y l|l l' l'' H1 IH1 H2 IH2]; cbn [filter].
  - reflexivity.
  - destruct (f x); cbn [length]; congruence.
  - destruct (f x), (f y); reflexivity.
  - congruence.
Qed.

Lemma insert_item_perm {V : Type} (kv : float * V) (l : list (float * V)) :
  Permutation (kv :: l) (insert_item kv l).
Proof.
  induction l as [|y l IH]; cbn [insert_item]; [reflexivity|].
  destruct (fst y <? fst kv)%float; [|reflexivity].
  rewrite perm_swap. apply perm_skip. exact IH.
Qed.

Lemma sorted_items_perm {V : Type} (d : list (float * V)) :
  Permutation d (sorted_items d).
Proof.
  induction d as [|kv d IH]; cbn [sorted_items fold_right]; [reflexivity|].
  rewrite <- insert_item_perm. apply perm_skip. exact IH.
Qed.

(** The progression loop never raises: a level that contributes has more
    than 3 vertices, so its means, maximum and minimum exist.  It yields
    one entry per level with data. *)
Lemma progression_step_total (acc : list level)
    (item : float * list (float * float)) :
  exists new,
    progression_step acc item = Ok (acc ++ new)
    /\ length new = if (3 <? length (snd item))%nat then 1 else 0.
Proof.
  destruct item as [z data]. unfold progression_step. cbn [snd].
  rewrite length_map.
  destruct (3 <? length data)%nat eqn:Hlen.
  - destruct data as [|d data]; [discriminate Hlen|].
    cbn [map length Py.div_len Py.max Py.min bind].
    eexists [_]. split; reflexivity.
  - exists []. rewrite app_nil_r. split; reflexivity.
Qed.

Lemma progression_loop (items : list (float * list (float * float))) :
  forall acc, exists new,
    foldM progression_step items acc = Ok (acc ++ new)
    /\ length new
       = length (filter (fun item => (3 <? length (snd item))%nat) items).
Proof.
  induction items as [|item items IH]; intros acc; cbn [foldM filter].
  - exists []. rewrite app_nil_r. split; reflexivity.
  - destruct (progression_step_total acc item) as (new1 & -> & Hlen1).
    cbn [bind].
    destruct (IH (acc ++ new1)) as (new2 & -> & Hlen2).
    exists (new1 ++ new2). rewrite app_assoc. split; [reflexivity|].
    rewrite length_app, Hlen1, Hlen2.
    destruct (3 <? length (snd item))%nat; reflexivity.
Qed.

Lemma progression_length (z_angle_data : list (float * list (float * float))) :
  exists prog, z_angle_progression_of z_angle_data = Ok prog
               /\ length prog = buckets_with_data z_angle_data.
Proof.
  unfold z_angle_progression_of, buckets_with_data.
  destruct (progression_loop (sorted_items z_angle_data) []) as (new & Hrun & Hnew).
  exists new. split; [exact Hrun|].
  rewrite Hnew. symmetry. apply filter_length_perm, sorted_items_perm.
Qed.

(** The two thresholds of the classification, as floats. *)
Lemma above_threshold_nonzero (a : float) :
  (0.01 <? a)%float = true ->
  (0.001 <? a)%float = true /\ (a =? 0)%float = false.
Proof.
  intros Ha.
  assert (H1 : (0.001 <? a)%float = true)
    by (apply (@float_ltb_trans 0.001 0.01 a); [reflexivity|exact Ha]).
  split; [exact H1|].
  apply float_ltb_neq.
  apply (@float_ltb_trans 0 0.001 a); [reflexivity|exact H1].
Qed.

End HelixFacts.

(** C3 (as amended).  For every sequence of at least 5 per-bucket entries
    that yields at least one slope, with computable slope statistics, the
    detector returns a classification that is helical if and only if the
    variance of the slopes is below 0.01 and the absolute average slope
    exceeds 0.01; and when it is helical, its pitch is 2 pi / |average
    slope| and its handedness right if the average slope is positive,
    left otherwise. *)
Theorem helix_classification `{Platform}
    (prog : list level) (ds : list float) (avg var : float) :
  5 <= length prog ->
  angle_z_derivatives prog = Ok ds -> ds <> [] ->
  slope_stats ds = Ok (avg, var) ->
  exists c,
    helix_of_progression prog = Ok (Some c)
    /\ (is_helical c = true <->
        (var <? 0.01)%float = true /\ (0.01 <? abs avg)%float = true)
    /\ (is_helical c = true ->
        exists radius,
          c = Helical (2 * Py.pi / abs avg)%float radius (radius * 2)%float
                (if (0 <? avg)%float then RightHand else LeftHand)).
Proof.
  intros Hlen Hds Hne Hstats. unfold helix_of_progression.
  replace (length prog <? 5)%nat with false by (symmetry; apply Nat.ltb_ge; exact Hlen).
  rewrite Hds. cbn [bind].
  destruct ds as [|d ds]; [contradiction|].
  rewrite Hstats. cbn [bind].
  destruct (var <? 0.01)%float eqn:Hv; cbn [andb].
  - destruct (0.01 <? abs avg)%float eqn:Ha.
    + destruct (above_threshold_nonzero Ha) as [Ha' Hnz].
      rewrite Ha'. unfold Py.truediv. rewrite Hnz. cbn [bind].
      destruct prog as [|l prog]; [cbn in Hlen; lia|].
      cbn [length Py.div_len bind].
      eexists. split; [reflexivity|]. split.
      * split; [auto|reflexivity].
      * intros _. eexists. reflexivity.
    + exists NotHelical. split; [reflexivity|]. split.
      * split; [discriminate|intros [_ Hf]; discriminate].
      * discriminate.
  - exists NotHelical. split; [reflexivity|]. split.
    + split; [discriminate|intros [Hf _]; discriminate].
    + discriminate.
Qed.

Lemma helix_classification_witness :
  exists c,
    helix_of_progression (helix_levels 5) = Ok (Some c)
    /\ (is_helical c = true <->
        (0 <? 0.01)%float = true /\ (0.01 <? abs 0.5)%float = true)
    /\ (is_helical c = true ->
        exists radius,
          c = Helical (2 * Py.pi / abs 0.5)%float radius (radius * 2)%float
                (if (0 <? 0.5)%float then RightHand else LeftHand)).
Proof.
  apply (@helix_classification exact_platform (helix_levels 5)
           [0.5; 0.5; 0.5; 0.5]%float 0.5%float 0%float).
  - vm_compute. lia.
  - vm_compute. reflexivity.
  - discriminate.
  - vm_compute. reflexivity.
Defined.

(** C3 as stated fails on short sequences: four levels whose mean angle
    advances by exactly half a radian per millimetre have slopes of
    variance 0 and average 0.5, and are not classified as helical. *)
Lemma four_levels_not_classified :
  angle_z_derivatives (helix_levels 4) = Ok [0.5; 0.5; 0.5]%float
  /\ slope_stats [0.5; 0.5; 0.5]%float = Ok (0.5, 0)%float
  /\ (0 <? 0.01)%float = true /\ (0.01 <? abs 0.5)%float = true
  /\ helix_of_progression (helix_levels 4) = Ok None
  /\ reported_helical None = false.
Proof. repeat split; vm_compute; reflexivity. Qed.

(** C4 (as amended).  When fewer than 5 height buckets hold data (more
    than 3 vertices), the detector returns [None] -- no classification
    record -- without raising; its caller reads [None] as not helical. *)
Theorem detect_helical_insufficient `{Platform}
    (facets : list facet) (cx cy : float) (radius_range : float * float)
    (verts : list cyl_vert) (z_angle_data : list (float * list (float * float))) :
  cylindrical_verts_of facets cx cy radius_range = Ok verts ->
  z_angle_data_of verts = Ok z_angle_data ->
  buckets_with_data z_angle_data < 5 ->
  detect_helical_pattern facets cx cy radius_range = Ok None
  /\ reported_helical None = false.
Proof.
  intros Hverts Hdata Hfew. split; [|reflexivity].
  unfold detect_helical_pattern. rewrite Hverts. cbn [bind].
  destruct verts as [|v verts]; [reflexivity|].
  rewrite Hdata. cbn [bind].
  destruct (length (sorted_items z_angle_data) <? 5)%nat; [reflexivity|].
  destruct (progression_length z_angle_data) as (prog & -> & Hlen).
  cbn [bind]. unfold helix_of_progression.
  replace (length prog <? 5)%nat with true; [reflexivity|].
  symmetry. apply Nat.ltb_lt. lia.
Qed.

Lemma detect_helical_insufficient_witness :
  detect_helical_pattern [axis_facet] 0 0 (2, 8)%float = Ok None
  /\ reported_helical None = false.
Proof.
  apply (@detect_helical_insufficient exact_platform [axis_facet] 0 0 (2, 8)%float
           [mkCyl 3 0 0 3 0; mkCyl 4 0 1 4 0; mkCyl 5 0 2 5 0]
           [(0, [(0, 3)]); (1, [(0, 4)]); (2, [(0, 5)])]%float).
  - vm_compute. reflexivity.
  - vm_compute. reflexivity.
  - vm_compute. lia.
Defined.

(** Why the bucketing has to succeed: a vertex whose height is NaN (a
    value a binary STL file can hold) makes [round] raise. *)
Example nan_height_raises :
  detect_helical_pattern
    [mkFacet (0, 0, 1)%float [(3, 0, nan)%float; (4, 0, 1)%float; (5, 0, 2)%float]]
    0 0 (2, 8)%float
  = Raise ValueError.
Proof. vm_compute. reflexivity. Qed.

(** C4 as stated fails: with too few buckets the detector returns [None],
    not a classification whose is_helical field is false. *)
Lemma insufficient_data_returns_none :
  buckets_with_data [(0, [(0, 3)]); (1, [(0, 4)]); (2, [(0, 5)])]%float < 5
  /\ detect_helical_pattern [axis_facet] 0 0 (2, 8)%float = Ok None
  /\ detect_helical_pattern [axis_facet] 0 0 (2, 8)%float <> Ok (Some NotHelical).
Proof.
  split; [vm_compute; lia|]. split; [vm_compute; reflexivity|].
  vm_compute. discriminate.
Qed.

(** * Further properties of the scripts *)

(** ** The binary parser *)

(** X1.  Bytes that follow the declared records are never read: a
    well-formed file followed by any trailing data parses to the same
    facets. *)
Theorem parse_binary_stl_ignores_trailing
    (header cnt : list byte) (recs : list (list byte * list byte))
    (trailing : list byte) :
  length header = 80 -> length cnt = 4 ->
  le_combine cnt = Z.of_nat (length recs) ->
  Forall (fun r => length (fst r) = 48 /\ length (snd r) = 2) recs ->
  parse_binary_stl
    (header ++ cnt ++ flat_map (fun r => fst r ++ snd r) recs ++ trailing)
  = Ok (map (fun r => facet_of_record (fst r)) recs).
Proof.
  intros Hh Hc Hn Hwf. rewrite parse_split by assumption.
  rewrite Hn, Nat2Z.id.
  apply (read_triangles_records trailing [] Hwf).
Qed.

Lemma parse_binary_stl_ignores_trailing_witness :
  parse_binary_stl
    (sample_header ++ count_bytes x01
       ++ flat_map (fun r => fst r ++ snd r) [(sample_body, [x00; x00])]
       ++ [xde; xad; xbe; xef])
  = Ok (map (fun r => facet_of_record (fst r)) [(sample_body, [x00; x00])]).
Proof.
  apply parse_binary_stl_ignores_trailing; [reflexivity|reflexivity|reflexivity|].
  repeat constructor.
Defined.

(** ** Clustering *)

Section ClusteringMore.
Context `{Platform}.

Lemma merge_keep_false (thr : float) (h : hole) (clustered : list hole) :
  merge_keep thr h clustered = Ok false ->
  Forall (fun c => out_of_range thr c h) clustered.
Proof.
  induction clustered as [|c cs IH]; intros Hrun; cbn [merge_keep] in Hrun;
    [constructor|].
  destruct (hole_dist h c) as [d|e] eqn:Hd; cbn [bind] in Hrun; [|discriminate].
  destruct (d <? thr)%float eqn:Hlt; [discriminate|].
  constructor; [exists d; auto|apply IH; exact Hrun].
Qed.

Lemma ordpairs_snoc {A : Type} (R : A -> A -> Prop) (l : list A) (x : A) :
  ForallOrdPairs R l -> Forall (fun a => R a x) l ->
  ForallOrdPairs R (l ++ [x]).
Proof.
  induction 1 as [|a l Ha Hl IH]; intros Hx; cbn [app].
  - constructor; constructor.
  - inversion Hx as [|? ? Hax Hlx]; subst.
    constructor; [|apply IH; exact Hlx].
    apply Forall_app; split; [exact Ha|constructor; [exact Hax|constructor]].
Qed.

Lemma keep_loop_separated (thr : float) (hs : list hole) :
  forall clustered r,
    ForallOrdPairs (out_of_range thr) clustered ->
    foldM (cluster_step_keep thr) hs clustered = Ok r ->
    ForallOrdPairs (out_of_range thr) r.
Proof.
  induction hs as [|h hs IH]; intros clustered r Hsep Hrun; cbn [foldM] in Hrun.
  - injection Hrun as <-. exact Hsep.
  - unfold cluster_step_keep at 1 in Hrun.
    destruct (merge_keep thr h clustered) as [[|]|e] eqn:Hm; cbn [bind] in Hrun;
      [| |discriminate].
    + apply (IH _ _ Hsep Hrun).
    + apply (IH _ _ (@ordpairs_snoc _ _ _ _ Hsep (merge_keep_false _ _ _ Hm)) Hrun).
Qed.

(** X2.  cluster_holes never returns two candidates within merge range of
    each other: for every candidate, the distance from each later
    candidate to it was computed and found not below the threshold. *)
Theorem cluster_holes_separated (holes : list hole) (thr : float) (r : list hole) :
  cluster_holes holes thr = Ok r ->
  ForallOrdPairs (out_of_range thr) r.
Proof.
  intros Hrun.
  destruct (cluster_holes_facts holes thr) as [Heq _]. rewrite Heq in Hrun.
  destruct (cluster_holes_unfold holes thr) as [_ Hk]. rewrite Hk in Hrun.
  apply (@keep_loop_separated thr (sorted_desc holes) [] r (FOP_nil _) Hrun).
Qed.

Lemma insert_desc_head (h : hole) (l : list hole) :
  Forall (fun x => conf_ge h x) l -> insert_desc h l = h :: l.
Proof.
  destruct l as [|x l]; [reflexivity|]. intros Hdom.
  inversion Hdom as [|? ? Hx _]; subst. cbn [insert_desc].
  replace (confidence h <? confidence x)%Z with false; [reflexivity|].
  symmetry. apply Z.ltb_ge. exact Hx.
Qed.

(** Sorting a list that is already in descending order changes nothing. *)
Lemma sorted_desc_fixed (l : list hole) :
  StronglySorted conf_ge l -> sorted_desc l = l.
Proof.
  induction 1 as [|h l Hs IH Hh]; [reflexivity|].
  cbn [sorted_desc fold_right]. fold (sorted_desc l). rewrite IH.
  apply insert_desc_head. exact Hh.
Qed.

Lemma merge_into_out_of_range (thr : float) (h : hole) (clustered : list hole) :
  Forall (fun c => out_of_range thr c h) clustered ->
  merge_into thr h clustered = Ok None.
Proof.
  induction 1 as [|c cs (d & Hd & Hlt) Hcs IH]; [reflexivity|].
  cbn [merge_into]. rewrite Hd. cbn [bind]. rewrite Hlt, IH. reflexivity.
Qed.

Lemma ordpairs_app_inv {A : Type} (R : A -> A -> Prop) (l1 : list A) :
  forall x l2, ForallOrdPairs R (l1 ++ x :: l2) ->
               Forall (fun a => R a x) l1 /\ ForallOrdPairs R ((l1 ++ [x]) ++ l2).
Proof.
  intros x l2 Hp. split.
  - induction l1 as [|a l1 IH]; [constructor|].
    cbn [app] in Hp. inversion Hp as [|? ? Ha Hl]; subst.
    constructor; [|apply IH; exact Hl].
    rewrite Forall_forall in Ha. apply Ha. apply in_or_app. right. left. reflexivity.
  - rewrite <- app_assoc. exact Hp.
Qed.

Lemma step_loop_separated (thr : float) (hs : list hole) :
  forall clustered,
    ForallOrdPairs (out_of_range thr) (clustered ++ hs) ->
    foldM (cluster_step thr) hs clustered = Ok (clustered ++ hs).
Proof.
  induction hs as [|h hs IH]; intros clustered Hsep; cbn [foldM].
  - rewrite app_nil_r. reflexivity.
  - destruct (@ordpairs_app_inv _ _ _ _ _ Hsep) as [Hfar Hsep'].
    unfold cluster_step at 1.
    rewrite (@merge_into_out_of_range thr h clustered Hfar). cbn [bind].
    rewrite (IH _ Hsep'). rewrite <- app_assoc. reflexivity.
Qed.

(** X3.  Clustering is idempotent: clustering the candidates that
    cluster_holes returned gives the same candidates again. *)
Theorem cluster_holes_idempotent (holes : list hole) (thr : float) (r : list hole) :
  cluster_holes holes thr = Ok r ->
  cluster_holes r thr = Ok r.
Proof.
  intros Hrun.
  destruct (cluster_holes_facts holes thr) as [Heq F].
  assert (Hsep : ForallOrdPairs (out_of_range thr) r).
  { pose proof Hrun as Hkeep. rewrite Heq in Hkeep.
    destruct (cluster_holes_unfold holes thr) as [_ Hk]. rewrite Hk in Hkeep.
    apply (@keep_loop_separated thr (sorted_desc holes) [] r (FOP_nil _) Hkeep). }
  destruct (F r Hrun) as [Hsub _].
  assert (Hsorted : StronglySorted conf_ge r)
    by (eapply subseq_sorted; [exact Hsub|apply sorted_desc_sorted]).
  destruct (cluster_holes_unfold r thr) as [-> _].
  rewrite (@sorted_desc_fixed r Hsorted).
  apply (@step_loop_separated thr r []). exact Hsep.
Qed.

Lemma subseq_length {A : Type} (l1 l2 : list A) :
  subseq l1 l2 -> length l1 <= length l2.
Proof. induction 1; cbn [length]; lia. Qed.

(** X4.  cluster_holes returns at most as many candidates as it was given
    holes; given at least one hole it returns at least one candidate, and
    its first candidate has the highest confidence of all the holes. *)
Theorem cluster_holes_first_is_best (holes : list hole) (thr : float) (r : list hole) :
  cluster_holes holes thr = Ok r ->
  length r <= length holes
  /\ (holes <> [] ->
      exists c rest, r = c :: rest /\ In c holes
                     /\ forall h, In h holes -> (confidence h <= confidence c)%Z).
Proof.
  intros Hrun.
  destruct (cluster_holes_facts holes thr) as [_ F].
  destruct (F r Hrun) as [Hsub Hmem].
  split.
  - rewrite (Permutation_length (sorted_desc_perm holes)).
    apply subseq_length. exact Hsub.
  - intros Hne. destruct holes as [|h0 holes']; [contradiction|].
    destruct r as [|c rest].
    + destruct (Hmem h0 (or_introl eq_refl)) as (c & [] & _).
    + exists c, rest. split; [reflexivity|]. split.
      * eapply Permutation_in; [symmetry; apply sorted_desc_perm|].
        eapply subseq_In; [exact Hsub|left; reflexivity].
      * intros h Hh. destruct (Hmem h Hh) as (c' & Hc' & Hge & _).
        assert (Hs : StronglySorted conf_ge (c :: rest))
          by (eapply subseq_sorted; [exact Hsub|apply sorted_desc_sorted]).
        inversion Hs as [|? ? _ Hc]; subst. rewrite Forall_forall in Hc.
        unfold conf_ge in *. destruct Hc' as [<-|Hin]; [lia|].
        specialize (Hc _ Hin). lia.
Qed.

Lemma unique_loop (hs : list hole) :
  forall unique r,
    foldM unique_step hs unique = Ok r ->
    (forall x, In x r -> In x unique \/ In x hs)
    /\ length r <= length unique + length hs.
Proof.
  induction hs as [|h hs IH]; intros unique r Hrun; cbn [foldM] in Hrun.
  - injection Hrun as <-. split; [auto|lia].
  - unfold unique_step at 1 in Hrun.
    destruct (replace_duplicate h unique) as [[u'|]|e] eqn:Hrep;
      cbn [bind] in Hrun; [| |discriminate].
    + destruct (replace_duplicate_some _ _ Hrep)
        as (pre & uh & post & d & -> & _ & _ & ->).
      destruct (IH _ _ Hrun) as [Hin Hlen]. split.
      * intros x Hx. destruct (Hin x Hx) as [Hu|Hh]; [|right; right; exact Hh].
        destruct (confidence h >? confidence uh)%Z; [|left; exact Hu].
        apply in_app_or in Hu. destruct Hu as [Hu|Hu];
          [left; apply in_or_app; left; exact Hu|].
        apply in_app_or in Hu. destruct Hu as [Hu|[<-|[]]];
          [left; apply in_or_app; right; right; exact Hu|right; left; reflexivity].
      * destruct (confidence h >? confidence uh)%Z;
          rewrite ?length_app in *; cbn [length] in *; lia.
    + destruct (IH _ _ Hrun) as [Hin Hlen]. split.
      * intros x Hx. destruct (Hin x Hx) as [Hu|Hh]; [|right; right; exact Hh].
        apply in_app_or in Hu. destruct Hu as [Hu|[<-|[]]];
          [left; exact Hu|right; left; reflexivity].
      * rewrite length_app in Hlen. cbn [length] in *. lia.
Qed.

(** X5.  The duplicate removal of find_holes only drops or moves
    candidates: every hole it keeps is one of the candidates, and it keeps
    no more holes than there are candidates. *)
Theorem unique_holes_are_candidates (hole_candidates r : list hole) :
  unique_holes_of hole_candidates = Ok r ->
  Forall (fun x => In x hole_candidates) r
  /\ length r <= length hole_candidates.
Proof.
  intros Hrun. destruct (@unique_loop hole_candidates [] r Hrun) as [Hin Hlen]. split.
  - apply Forall_forall. intros x Hx. destruct (Hin x Hx) as [[]|Hh]. exact Hh.
  - exact Hlen.
Qed.

End ClusteringMore.

Lemma cluster_holes_separated_witness :
  ForallOrdPairs (out_of_range 3) [hole_at 0 0 5 30; hole_at 4 0 5 10].
Proof.
  apply (@cluster_holes_separated exact_platform three_holes 3).
  vm_compute. reflexivity.
Defined.

Lemma cluster_holes_idempotent_witness :
  cluster_holes [hole_at 0 0 5 30; hole_at 4 0 5 10] 3
  = Ok [hole_at 0 0 5 30; hole_at 4 0 5 10].
Proof.
  apply (@cluster_holes_idempotent exact_platform three_holes 3).
  vm_compute. reflexivity.
Defined.

Lemma cluster_holes_first_is_best_witness :
  length [hole_at 0 0 5 30; hole_at 4 0 5 10] <= length three_holes
  /\ (three_holes <> [] ->
      exists c rest, [hole_at 0 0 5 30; hole_at 4 0 5 10] = c :: rest
                     /\ In c three_holes
                     /\ forall h, In h three_holes ->
                                  (confidence h <= confidence c)%Z).
Proof.
  apply (@cluster_holes_first_is_best exact_platform three_holes 3).
  vm_compute. reflexivity.
Defined.

Lemma unique_holes_are_candidates_witness :
  Forall (fun x => In x [hole_at 0 0 5 7; hole_at 1 3 9 70; hole_at 4 0 5 7])
         [hole_at 1 3 9 70; hole_at 4 0 5 7]
  /\ length [hole_at 1 3 9 70; hole_at 4 0 5 7]
     <= length [hole_at 0 0 5 7; hole_at 1 3 9 70; hole_at 4 0 5 7].
Proof.
  apply (@unique_holes_are_candidates exact_platform).
  vm_compute. reflexivity.
Defined.

(** ** Void sweep *)

Section VoidSweepMore.
Context `{Platform}.

Lemma void_at_recorded (mp : nat) (R : float) (pts : list (float * float))
    (cx cy : Z) (h : void_hit) :
  void_at mp pts R cx cy = Ok (Some h) ->
  hx h = cx /\ hy h = cy /\ hit_recorded mp pts R h.
Proof.
  unfold void_at, hit_recorded. intros Hrun.
  destruct (foldM (count_step R cx cy) pts (0, 0)) as [[c p]|e] eqn:Hc;
    cbn [bind] in Hrun; [|discriminate].
  destruct (c <? 10)%nat eqn:Hi; destruct (mp <? p)%nat eqn:Ha;
    cbn [andb] in Hrun; try discriminate.
  destruct (Py.int_truediv (Z.of_nat p) (Z.max (Z.of_nat c) 1)) as [q|e] eqn:Hq;
    cbn [bind] in Hrun; [|discriminate].
  injection Hrun as <-. cbn [hx hy center_count perimeter_count ratio].
  apply Nat.ltb_lt in Hi, Ha. rewrite Hc. auto 6.
Qed.

Lemma row_recorded (mp : nat) (R : float) (pts : list (float * float)) (cx : Z)
    (ys : list Z) :
  forall acc r,
    foldM (hit_step mp pts R cx) ys acc = Ok r ->
    exists new, r = acc ++ new
                /\ Forall (fun h => hx h = cx /\ In (hy h) ys
                                    /\ hit_recorded mp pts R h) new.
Proof.
  induction ys as [|y ys IH]; intros acc r Hrun; cbn [foldM] in Hrun.
  - injection Hrun as <-. exists []. rewrite app_nil_r. split; [reflexivity|constructor].
  - unfold hit_step at 1 in Hrun.
    destruct (void_at mp pts R cx y) as [o|e] eqn:Hv; cbn [bind] in Hrun;
      [|discriminate].
    destruct (IH _ _ Hrun) as (new & -> & Hnew).
    assert (Hnew' : Forall (fun h => hx h = cx /\ In (hy h) (y :: ys)
                                     /\ hit_recorded mp pts R h) new).
    { eapply Forall_impl; [|exact Hnew].
      intros h (Hx & Hy & Hr). split; [exact Hx|]. split; [right; exact Hy|exact Hr]. }
    destruct o as [h0|].
    + exists (h0 :: new). rewrite <- app_assoc. split; [reflexivity|].
      constructor; [|exact Hnew'].
      destruct (void_at_recorded _ _ _ _ _ Hv) as (Hx & Hy & Hr).
      split; [exact Hx|]. split; [left; symmetry; exact Hy|exact Hr].
    + exists new. split; [reflexivity|exact Hnew'].
Qed.

Lemma rows_recorded (mp : nat) (R : float) (pts : list (float * float))
    (y_min y_max : float) (xs : list Z) :
  forall acc r,
    foldM (sweep_row mp pts R y_min y_max) xs acc = Ok r ->
    exists new,
      r = acc ++ new
      /\ Forall (fun h =>
                   In (hx h) xs
                   /\ (exists ylo yhi, Py.int y_min = Ok ylo /\ Py.int y_max = Ok yhi
                                       /\ In (hy h) (py_range (ylo + 1) yhi))
                   /\ hit_recorded mp pts R h) new.
Proof.
  induction xs as [|x xs IH]; intros acc r Hrun; cbn [foldM] in Hrun.
  - injection Hrun as <-. exists []. rewrite app_nil_r. split; [reflexivity|constructor].
  - unfold sweep_row at 1 in Hrun.
    destruct (Py.int y_min) as [ylo|e] eqn:Hlo; cbn [bind] in Hrun; [|discriminate].
    destruct (Py.int y_max) as [yhi|e] eqn:Hhi; cbn [bind] in Hrun; [|discriminate].
    destruct (foldM (hit_step mp pts R x) (py_range (ylo + 1) yhi) acc)
      as [acc'|e] eqn:Hrow; cbn [bind] in Hrun; [|discriminate].
    destruct (row_recorded _ _ _ _ _ _ Hrow) as (new1 & -> & H1).
    destruct (IH _ _ Hrun) as (new2 & -> & H2).
    exists (new1 ++ new2). rewrite app_assoc. split; [reflexivity|].
    apply Forall_app. split.
    + eapply Forall_impl; [|exact H1].
      intros h (Hx & Hy & Hr). split; [left; symmetry; exact Hx|].
      split; [exists ylo, yhi; auto|exact Hr].
    + eapply Forall_impl; [|exact H2].
      intros h (Hx & Hy & Hr). split; [right; exact Hx|]. split; assumption.
Qed.

Lemma sweep_face_recorded (mp : nat) (R : float) (pts : list (float * float))
    (hits : list void_hit) :
  sweep_face mp pts R = Ok hits ->
  Forall (fun h => on_grid pts (hx h) (hy h) /\ hit_recorded mp pts R h) hits.
Proof.
  unfold sweep_face. intros Hrun.
  destruct (extents pts) as [[[[x_min x_max] y_min] y_max]|e] eqn:Hext;
    cbn [bind] in Hrun; [|discriminate].
  destruct (Py.int x_min) as [xlo|e] eqn:Hxlo; cbn [bind] in Hrun; [|discriminate].
  destruct (Py.int x_max) as [xhi|e] eqn:Hxhi; cbn [bind] in Hrun; [|discriminate].
  destruct (rows_recorded _ _ _ _ _ _ _ Hrun) as (new & -> & Hnew).
  cbn [app]. eapply Forall_impl; [|exact Hnew].
  intros h (Hx & (ylo & yhi & Hylo & Hyhi & Hy) & Hr). split; [|exact Hr].
  exists x_min, x_max, y_min, y_max, xlo, xhi, ylo, yhi.
  apply py_range_In in Hx, Hy. repeat split; try assumption; lia.
Qed.

End VoidSweepMore.

(** X6.  Every void the sweep reports lies on the search grid and carries
    the two counters the sweep computed at its position, which show the
    hole signature: fewer than 10 center vertices and more than 50
    perimeter vertices on the top face, more than 40 on the back face. *)
Theorem reported_voids_show_signature `{Platform} (verts : list vec3) (R : float) :
  (forall hits z_max,
      find_circular_voids_on_top verts R = Ok hits ->
      Py.max (map v2 verts) = Ok z_max ->
      Forall (fun h => on_grid (top_points verts z_max) (hx h) (hy h)
                       /\ hit_recorded 50 (top_points verts z_max) R h) hits)
  /\ (forall hits y_max,
        find_circular_voids_on_back_face verts R = Ok (hits, y_max) ->
        Py.max (map v1 verts) = Ok y_max
        /\ Forall (fun h => on_grid (back_points verts y_max) (hx h) (hy h)
                            /\ hit_recorded 40 (back_points verts y_max) R h) hits).
Proof.
  split.
  - intros hits z_max Hrun Hmax. unfold find_circular_voids_on_top in Hrun.
    rewrite Hmax in Hrun. cbn [bind] in Hrun.
    apply sweep_face_recorded. exact Hrun.
  - intros hits y_max Hrun. unfold find_circular_voids_on_back_face in Hrun.
    destruct (Py.max (map v1 verts)) as [ym|e]; cbn [bind] in Hrun; [|discriminate].
    destruct (sweep_face 40 (back_points verts ym) R) as [hs|e] eqn:Hsweep;
      cbn [bind] in Hrun; [|discriminate].
    injection Hrun as <- <-. split; [reflexivity|].
    apply sweep_face_recorded. exact Hsweep.
Qed.

Lemma reported_voids_show_signature_witness :
  Py.max (map v1 ring_back) = Ok 0%float
  /\ Forall (fun h => on_grid (back_points ring_back 0) (hx h) (hy h)
                     /\ hit_recorded 40 (back_points ring_back 0) 3 h)
            [mkVoid 6 1 0 42 42; mkVoid 7 1 0 42 42].
Proof.
  apply (proj2 (@reported_voids_show_signature exact_platform ring_back 3)).
  vm_compute. reflexivity.
Defined.

(** X7.  Both void detectors raise ValueError, from [max] or [min] of an
    empty sequence, when there is no vertex at all or when no vertex
    passes the face filter. *)
Theorem void_sweep_without_face_raises `{Platform} (verts : list vec3) (R : float) :
  (verts = [] ->
   find_circular_voids_on_top verts R = Raise ValueError
   /\ find_circular_voids_on_back_face verts R = Raise ValueError)
  /\ (forall z_max, Py.max (map v2 verts) = Ok z_max ->
                    top_points verts z_max = [] ->
                    find_circular_voids_on_top verts R = Raise ValueError)
  /\ (forall y_max, Py.max (map v1 verts) = Ok y_max ->
                    back_points verts y_max = [] ->
                    find_circular_voids_on_back_face verts R = Raise ValueError).
Proof.
  split; [intros ->; split; reflexivity|]. split.
  - intros z_max Hmax Hempty. unfold find_circular_voids_on_top.
    rewrite Hmax. cbn [bind]. rewrite Hempty. reflexivity.
  - intros y_max Hmax Hempty. unfold find_circular_voids_on_back_face.
    rewrite Hmax. cbn [bind]. rewrite Hempty. reflexivity.
Qed.

Lemma void_sweep_without_face_raises_witness :
  find_circular_voids_on_top [(0, 0, infinity)%float; (1, 1, 0)%float] 3
  = Raise ValueError.
Proof.
  apply (proj1 (proj2 (@void_sweep_without_face_raises exact_platform
                         [(0, 0, infinity)%float; (1, 1, 0)%float] 3))
           infinity).
  - vm_compute. reflexivity.
  - vm_compute. reflexivity.
Defined.

(** ** Circular cross-sections *)

Section CrossSectionMore.
Context `{Platform}.


Lemma subseq_app {A : Type} (l1 l2 m1 m2 : list A) :
  subseq l1 m1 -> subseq l2 m2 -> subseq (l1 ++ l2) (m1 ++ m2).
Proof.
  induction 1; intros H2; cbn [app];
    [exact H2|apply subseq_skip; auto|apply subseq_keep; auto].
Qed.


End CrossSectionMore.



(** ** Helix detection *)

Section HelixMore.
Context `{Platform}.

Lemma py_pow2_raises (x : float) (e : exn) :
  py_pow2 x = Raise e -> e = OverflowError.
Proof.
  unfold py_pow2.
  destruct (is_nan x); [discriminate|].
  destruct (is_infinity x); [discriminate|].
  destruct (x =? 0)%float; [discriminate|].
  destruct (abs x =? 1)%float; [discriminate|].
  destruct (is_infinity (c_pow2 (abs x))); [|discriminate].
  intros Heq. injection Heq as <-. reflexivity.
Qed.




End HelixMore.


(** ** The vertex-list parser *)

Lemma read_triangle_vertices_flat (n : nat) :
  forall (f : stream) (acc : list facet),
    read_triangle_vertices n f (all_vertices acc)
    = (facets <- read_triangles n f acc ;; Ok (all_vertices facets)).
Proof.
  induction n as [|n IH]; intros f acc; cbn [read_triangle_vertices read_triangles].
  - reflexivity.
  - destruct (read_triangle f) as [[t f']|e]; cbn [bind]; [|reflexivity].
    rewrite <- IH. unfold all_vertices. rewrite flat_map_app. cbn [flat_map].
    rewrite app_nil_r. reflexivity.
Qed.

(** X10.  The vertex-list parser of the sweep scripts agrees with the
    facet parser on every file: it fails on the same files with the same
    exception, and otherwise returns the vertices of the facets in order,
    three per facet. *)
Theorem parse_binary_stl_vertices_flattens (file : stream) :
  parse_binary_stl_vertices file
  = (facets <- parse_binary_stl file ;; Ok (all_vertices facets))
  /\ (forall facets, parse_binary_stl file = Ok facets ->
        exists vs, parse_binary_stl_vertices file = Ok vs
                   /\ length vs = 3 * length facets).
Proof.
  assert (Heq : parse_binary_stl_vertices file
                = (facets <- parse_binary_stl file ;; Ok (all_vertices facets))).
  { unfold parse_binary_stl_vertices, parse_binary_stl, read.
    destruct (unpack_I (firstn 4 (skipn 80 file))) as [n|e]; cbn [bind];
      [|reflexivity].
    apply (read_triangle_vertices_flat (Z.to_nat n) (skipn 4 (skipn 80 file)) []). }
  split; [exact Heq|].
  intros facets Hrun. rewrite Heq, Hrun. cbn [bind].
  exists (all_vertices facets). split; [reflexivity|].
  unfold parse_binary_stl, read in Hrun.
  destruct (unpack_I (firstn 4 (skipn 80 file))) as [n|e]; cbn [bind] in Hrun;
    [|discriminate].
  clear Heq. revert Hrun.
  generalize (skipn 4 (skipn 80 file)) as f.
  assert (Hgen : forall k f acc fs,
             length (all_vertices acc) = 3 * length acc ->
             read_triangles k f acc = Ok fs ->
             length (all_vertices fs) = 3 * length fs).
  { induction k as [|k IH]; intros f acc fs Hacc Hrun; cbn [read_triangles] in Hrun.
    - injection Hrun as <-. exact Hacc.
    - destruct (read_triangle f) as [[t f']|e] eqn:Ht; cbn [bind] in Hrun;
        [|discriminate].
      apply (IH _ _ _) in Hrun; [exact Hrun|].
      unfold all_vertices in *. rewrite flat_map_app, !length_app, Hacc.
      cbn [flat_map length]. rewrite app_nil_r.
      destruct (Nat.lt_ge_cases (length f) 48) as [Hs|Hl].
      + rewrite read_triangle_short in Ht by exact Hs. discriminate.
      + rewrite read_triangle_long in Ht by exact Hl. injection Ht as <- _.
        cbn [facet_of_record vertices length]. lia. }
  intros f Hrun. apply (Hgen _ _ [] _ eq_refl Hrun).
Qed.

(** ** Radial hole candidates and the axis estimate *)

Section RadialMore.
Context `{Platform}.

Lemma foldM_raises {A S : Type} (step : S -> A -> result S) (P : exn -> Prop)
    (l : list A) :
  (forall s x e, step s x = Raise e -> P e) ->
  forall s e, foldM step l s = Raise e -> P e.
Proof.
  intros Hstep. induction l as [|x l IH]; intros s e Hrun; cbn [foldM] in Hrun;
    [discriminate|].
  destruct (step s x) as [s'|e'] eqn:Hx; cbn [bind] in Hrun.
  - eapply IH. exact Hrun.
  - injection Hrun as <-. eapply Hstep. exact Hx.
Qed.

Lemma sqrt_raises (x : float) (e : exn) : Py.sqrt x = Raise e -> e = ValueError.
Proof.
  unfold Py.sqrt. destruct (is_nan (PrimFloat.sqrt x) && negb (is_nan x));
    [|discriminate].
  intros Heq. injection Heq as <-. reflexivity.
Qed.

Lemma round_raises (x : float) (e : exn) :
  Py.round x = Raise e -> e = ValueError \/ e = OverflowError.
Proof.
  unfold Py.round. destruct (Prim2SF x); try discriminate;
    intros Heq; injection Heq as <-; auto.
Qed.

Lemma radial_step_raises (cx cy : float) (d : list (float * radial_entry))
    (v : vec3) (e : exn) :
  radial_step cx cy d v = Raise e -> e = ValueError \/ e = OverflowError.
Proof.
  unfold radial_step.
  destruct (py_pow2 (v0 v - cx)) as [sx|e1] eqn:H1; cbn [bind];
    [|intros Heq; injection Heq as <-; right; eapply py_pow2_raises; exact H1].
  destruct (py_pow2 (v1 v - cy)) as [sy|e1] eqn:H2; cbn [bind];
    [|intros Heq; injection Heq as <-; right; eapply py_pow2_raises; exact H2].
  destruct (Py.sqrt (sx + sy)) as [r|e1] eqn:H3; cbn [bind];
    [|intros Heq; injection Heq as <-; left; eapply sqrt_raises; exact H3].
  destruct (Py.round (r * 2)) as [n|e1] eqn:H4; cbn [bind];
    [|intros Heq; injection Heq as <-; eapply round_raises; exact H4].
  unfold Py.int_truediv. cbn [Z.eqb bind].
  destruct ((2 <? r)%float && (r <? 12)%float); [|discriminate].
  destruct (Py.round (v2 v)) as [zb|e1] eqn:H5; cbn [bind]; [discriminate|].
  intros Heq; injection Heq as <-; eapply round_raises; exact H5.
Qed.

Lemma insert_Z_length (x : Z) (l : list Z) :
  length (insert_Z x l) = S (length l).
Proof.
  induction l as [|y l IH]; cbn [insert_Z]; [reflexivity|].
  destruct (y <? x)%Z; cbn [length]; congruence.
Qed.

Lemma sorted_Z_length (l : list Z) : length (sorted_Z l) = length l.
Proof.
  induction l as [|x l IH]; [reflexivity|].
  cbn [sorted_Z fold_right]. fold (sorted_Z l).
  rewrite insert_Z_length. cbn [length]. congruence.
Qed.

Lemma total_positions_cons (item : float * radial_entry)
    (items : list (float * radial_entry)) :
  total_positions (item :: items)
  = length (positions (snd item)) + total_positions items.
Proof. reflexivity. Qed.

Lemma total_confidence_cons (h : hole) (holes : list hole) :
  total_confidence (h :: holes) = (confidence h + total_confidence holes)%Z.
Proof. reflexivity. Qed.

(** What the second loop appends, if anything: never an exception. *)
Lemma candidate_step_spec (acc : list hole) (item : float * radial_entry) :
  candidate_step acc item = Ok acc
  \/ exists h, candidate_step acc item = Ok (acc ++ [h])
               /\ confidence h = Z.of_nat (length (positions (snd item)))
               /\ (100 < confidence h)%Z
               /\ radius h = fst item
               /\ diameter h = (radius h * 2)%float
               /\ depth h = (z_max h - z_min h)%float
               /\ Py.min (map v2 (positions (snd item))) = Ok (z_min h)
               /\ Py.max (map v2 (positions (snd item))) = Ok (z_max h).
Proof.
  destruct item as [r data]. unfold candidate_step. cbn [fst snd].
  destruct (3 <? length (sorted_Z (z_levels data)))%nat eqn:Hlv; [|left; reflexivity].
  destruct (sorted_Z (z_levels data)) as [|z zs]; [discriminate Hlv|].
  cbn [span_Z bind].
  destruct (5 <? _)%Z; cbn [andb]; [|left; reflexivity].
  destruct (100 <? length (positions data))%nat eqn:Hn; [|left; reflexivity].
  apply Nat.ltb_lt in Hn.
  destruct (positions data) as [|p ps] eqn:Hp;
    [exfalso; exact (Nat.nlt_0_r _ Hn)|].
  cbn [length Py.div_len map Py.min Py.max bind].
  right. eexists. split; [reflexivity|].
  cbn [confidence radius diameter depth z_max z_min].
  repeat split.
  change (length (p :: ps)) with (S (length ps)) in Hn.
  apply Nat2Z.inj_lt in Hn. exact Hn.
Qed.

Lemma candidate_loop (items : list (float * radial_entry)) :
  forall acc, exists new,
    foldM candidate_step items acc = Ok (acc ++ new)
    /\ Forall (fun h => (100 < confidence h)%Z
                        /\ diameter h = (radius h * 2)%float
                        /\ depth h = (z_max h - z_min h)%float
                        /\ exists item, In item items /\ radius h = fst item
                             /\ Py.min (map v2 (positions (snd item))) = Ok (z_min h)
                             /\ Py.max (map v2 (positions (snd item))) = Ok (z_max h))
              new
    /\ (total_confidence new <= Z.of_nat (total_positions items))%Z.
Proof.
  induction items as [|item items IH]; intros acc; cbn [foldM].
  - exists []. rewrite app_nil_r. split; [reflexivity|].
    split; [constructor|]. change (total_confidence []) with 0%Z. lia.
  - destruct (candidate_step_spec acc item) as [->|(h & -> & Hc & Hgt & Hr & Hd & Hz & Hmin & Hmax)];
      cbn [bind].
    + destruct (IH acc) as (new & -> & Hnew & Htot).
      exists new. split; [reflexivity|]. split.
      * eapply Forall_impl; [|exact Hnew].
        intros x (H1 & H2 & H3 & it & Hit & Hrest).
        repeat split; try assumption. exists it. split; [right; exact Hit|exact Hrest].
      * rewrite total_positions_cons. lia.
    + destruct (IH (acc ++ [h])) as (new & -> & Hnew & Htot).
      exists (h :: new). rewrite <- app_assoc. split; [reflexivity|]. split.
      * constructor.
        -- repeat split; try assumption. exists item.
           split; [left; reflexivity|auto].
        -- eapply Forall_impl; [|exact Hnew].
           intros x (H1 & H2 & H3 & it & Hit & Hrest).
           repeat split; try assumption. exists it. split; [right; exact Hit|exact Hrest].
      * rewrite total_positions_cons, total_confidence_cons. lia.
Qed.

Lemma dict_upd_positions (k : float) (f : option radial_entry -> radial_entry)
    (d : list (float * radial_entry)) :
  (forall o, length (positions (f o))
             = S (match o with Some e => length (positions e) | None => 0 end)) ->
  total_positions (dict_upd k f d) = S (total_positions d).
Proof.
  intros Hf. induction d as [|[k' e] d IH]; cbn [dict_upd].
  - rewrite total_positions_cons. cbn [snd]. rewrite Hf. reflexivity.
  - destruct (k' =? k)%float; rewrite !total_positions_cons; cbn [snd].
    + rewrite Hf. lia.
    + rewrite IH. lia.
Qed.

Lemma radial_loop_positions (cx cy : float) (verts : list vec3) :
  forall d d',
    foldM (radial_step cx cy) verts d = Ok d' ->
    total_positions d' <= total_positions d + length verts.
Proof.
  induction verts as [|v verts IH]; intros d d' Hrun; cbn [foldM] in Hrun.
  - injection Hrun as <-. lia.
  - destruct (radial_step cx cy d v) as [d1|e] eqn:Hstep; cbn [bind] in Hrun;
      [|discriminate].
    apply IH in Hrun. cbn [length].
    assert (total_positions d1 <= S (total_positions d)); [|lia].
    unfold radial_step in Hstep.
    destruct (py_pow2 _) as [sx|?]; cbn [bind] in Hstep; [|discriminate].
    destruct (py_pow2 _) as [sy|?]; cbn [bind] in Hstep; [|discriminate].
    destruct (Py.sqrt _) as [r|?]; cbn [bind] in Hstep; [|discriminate].
    destruct (Py.round _) as [n|?]; cbn [bind] in Hstep; [|discriminate].
    destruct (Py.int_truediv n 2) as [rb|?]; cbn [bind] in Hstep; [|discriminate].
    destruct ((2 <? r)%float && (r <? 12)%float).
    + destruct (Py.round (v2 v)) as [zb|?]; cbn [bind] in Hstep; [|discriminate].
      injection Hstep as <-. rewrite dict_upd_positions; [lia|].
      intros [e|]; cbn [positions]; rewrite length_app; cbn [length]; lia.
    + injection Hstep as <-. lia.
Qed.

Lemma total_positions_perm (d d' : list (float * radial_entry)) :
  Permutation d d' -> total_positions d = total_positions d'.
Proof.
  induction 1; rewrite ?total_positions_cons; lia.
Qed.

End RadialMore.

(** X11.  find_vertical_cylinders and find_cylinder_axis divide by zero on
    a mesh without vertices and on no other: with at least one vertex the
    axis estimate is returned, and the hole search can then only raise
    ValueError or OverflowError (from a NaN or infinite coordinate or an
    overflowing square). *)
Theorem division_by_zero_only_without_vertices `{Platform} (facets : list facet) :
  (all_vertices facets = [] ->
   find_vertical_cylinders facets = Raise ZeroDivisionError
   /\ find_cylinder_axis facets = Raise ZeroDivisionError)
  /\ (all_vertices facets <> [] ->
      (exists cx cy, find_cylinder_axis facets = Ok (cx, cy))
      /\ forall e, find_vertical_cylinders facets = Raise e ->
                   e = ValueError \/ e = OverflowError).
Proof.
  unfold find_vertical_cylinders, find_cylinder_axis. split.
  - intros ->. split; reflexivity.
  - intros Hne. destruct (all_vertices facets) as [|v vs] eqn:Hv; [contradiction|].
    cbn [length Py.div_len bind]. split; [eauto|].
    intros e.
    destruct (foldM _ (v :: vs) []) as [d|e'] eqn:Hloop; cbn [bind].
    + destruct (candidate_loop (sorted_items d) []) as (new & -> & _). discriminate.
    + intros Heq. injection Heq as <-.
      eapply (foldM_raises _ (fun e => e = ValueError \/ e = OverflowError));
        [|exact Hloop].
      intros s x e0. apply radial_step_raises.
Qed.

Lemma division_by_zero_only_without_vertices_witness :
  (exists cx cy, find_cylinder_axis (ring_mesh 1) = Ok (cx, cy))
  /\ forall e, find_vertical_cylinders (ring_mesh 1) = Raise e ->
               e = ValueError \/ e = OverflowError.
Proof.
  apply (proj2 (@division_by_zero_only_without_vertices exact_platform (ring_mesh 1))).
  discriminate.
Defined.

(** X12.  Every candidate find_vertical_cylinders returns has a
    confidence above 100, a diameter of twice its radius and a depth equal
    to the difference of its two heights.  The confidences count vertices
    of the mesh, none of them twice: they add up to at most the number of
    vertices of the mesh. *)
Theorem radial_candidates_supported `{Platform}
    (facets : list facet) (holes : list hole) :
  find_vertical_cylinders facets = Ok holes ->
  Forall (fun h => (100 < confidence h)%Z
                   /\ diameter h = (radius h * 2)%float
                   /\ depth h = (z_max h - z_min h)%float) holes
  /\ (total_confidence holes <= Z.of_nat (length (all_vertices facets)))%Z.
Proof.
  unfold find_vertical_cylinders. intros Hrun.
  destruct (Py.div_len _ _) as [cx|e]; cbn [bind] in Hrun; [|discriminate].
  destruct (Py.div_len _ _) as [cy|e]; cbn [bind] in Hrun; [|discriminate].
  destruct (foldM (radial_step cx cy) (all_vertices facets) []) as [d|e] eqn:Hloop;
    cbn [bind] in Hrun; [|discriminate].
  destruct (candidate_loop (sorted_items d) []) as (new & Hnew & Hall & Htot).
  rewrite Hnew in Hrun. injection Hrun as <-. cbn [app]. split.
  - eapply Forall_impl; [|exact Hall]. intros h (H1 & H2 & H3 & _). auto.
  - apply radial_loop_positions in Hloop.
    rewrite <- (total_positions_perm (sorted_items_perm d)) in Htot.
    change (total_positions []) with 0 in Hloop. lia.
Qed.

Lemma radial_candidates_supported_witness :
  Forall (fun h => (100 < confidence h)%Z
                   /\ diameter h = (radius h * 2)%float
                   /\ depth h = (z_max h - z_min h)%float)
         [mkHole 0 0 0 17 17 3 6 108]
  /\ (total_confidence [mkHole 0 0 0 17 17 3 6 108]
      <= Z.of_nat (length (all_vertices (post_mesh 18))))%Z.
Proof.
  apply (@radial_candidates_supported exact_platform (post_mesh 18)).
  vm_compute. reflexivity.
Defined.

(** ** Hole positions on a grid *)

Section FindHolesMore.
Context `{Platform}.



End FindHolesMore.



(** ** Format detection *)

Section FormatFacts.
Variable parse_ascii_stl : stream -> result (list facet).

Lemma prefixb_app (p l rest : list byte) :
  prefixb p l = true -> prefixb p (l ++ rest) = true.
Proof.
  revert l. induction p as [|a p IH]; intros l Hp; [reflexivity|].
  destruct l as [|b l]; [discriminate Hp|].
  cbn [prefixb app] in *. apply andb_prop in Hp. destruct Hp as [-> Hp].
  cbn [andb]. apply IH. exact Hp.
Qed.

Lemma containsb_app (needle l rest : list byte) :
  containsb needle l = true -> containsb needle (l ++ rest) = true.
Proof.
  induction l as [|b l IH]; intros Hc.
  - cbn [containsb] in Hc. rewrite orb_false_r in Hc.
    destruct needle; [|discriminate Hc].
    destruct rest; reflexivity.
  - cbn [containsb app] in *. apply orb_prop in Hc. destruct Hc as [Hp|Hc].
    + pose proof (prefixb_app _ (b :: l) rest Hp) as Hp'. cbn [app] in Hp'.
      rewrite Hp'. reflexivity.
    + rewrite (IH Hc). apply orb_true_r.
Qed.

End FormatFacts.

(** X14.  The format test looks at the first 1000 bytes only.  A file
    with a byte of 128 or more among them is always parsed as binary; a
    binary file whose 80-byte header holds both keywords and whose first
    1000 bytes are all below 128 is handed to the text parser instead. *)
Theorem format_detection
    (parse_ascii_stl : stream -> result (list facet)) (file : stream) :
  is_ascii_stl file = is_ascii_stl (firstn 1000 file)
  /\ (forallb is_ascii_byte (firstn 1000 file) = false ->
      parse_stl parse_ascii_stl file = parse_binary_stl file)
  /\ (forall header rest,
        file = header ++ rest -> length header = 80 ->
        containsb kw_facet_normal header = true ->
        containsb kw_vertex header = true ->
        forallb is_ascii_byte (firstn 1000 file) = true ->
        parse_stl parse_ascii_stl file = parse_ascii_stl file).
Proof.
  split; [|split].
  - unfold is_ascii_stl, read. cbn [fst]. rewrite firstn_firstn.
    rewrite Nat.min_id. reflexivity.
  - intros Hbin. unfold parse_stl, is_ascii_stl, read. cbn [fst].
    rewrite Hbin. reflexivity.
  - intros header rest -> Hlen Hk1 Hk2 Hasc.
    unfold parse_stl, is_ascii_stl, read. cbn [fst]. rewrite Hasc.
    rewrite firstn_app. rewrite (firstn_all2 (n := 1000) header) by lia.
    rewrite (containsb_app _ _ _ Hk1), (containsb_app _ _ _ Hk2). reflexivity.
Qed.

Lemma format_detection_witness :
  parse_stl (fun _ => Raise ValueError) (texty_header ++ count_bytes x00)
  = Raise ValueError.
Proof.
  refine (proj2 (proj2 (format_detection (fun _ => Raise ValueError)
                          (texty_header ++ count_bytes x00)))
            texty_header (count_bytes x00) _ _ _ _ _);
    vm_compute; reflexivity.
Defined.

(** ** Regular z spacing *)

Section ThreadPatternFacts.
Context `{Platform}.
Variable round1 : float -> float.

Lemma dict_upd_keys {V W : Type} (k : float) (f : option V -> V) (g : option W -> W)
    (d : list (float * V)) :
  forall d' : list (float * W),
    map fst d = map fst d' ->
    map fst (dict_upd k f d) = map fst (dict_upd k g d').
Proof.
  induction d as [|[k1 v1] d IH]; intros [|[k2 v2] d'] Hk; cbn [map fst] in Hk;
    try discriminate; [reflexivity|].
  injection Hk as -> Hk. cbn [dict_upd].
  destruct (k2 =? k)%float; cbn [map fst]; [congruence|].
  f_equal. apply IH. exact Hk.
Qed.

Lemma z_groups_keys (vs : list vec3) :
  forall (ws : list vec3) d d',
    map v2 vs = map v2 ws -> map fst d = map fst d' ->
    map fst (fold_left (z_group_step round1) vs d)
    = map fst (fold_left (z_group_step round1) ws d').
Proof.
  induction vs as [|v vs IH]; intros [|w ws] d d' Hz Hd; cbn [map] in Hz;
    try discriminate; [exact Hd|].
  injection Hz as Hv Hz. cbn [fold_left]. apply IH; [exact Hz|].
  unfold z_group_step. rewrite Hv. apply dict_upd_keys. exact Hd.
Qed.

Lemma dict_upd_key_set {V : Type} (k : float) (f : option V -> V)
    (d : list (float * V)) :
  map fst (dict_upd k f d)
  = if existsb (fun y => (y =? k)%float) (map fst d) then map fst d
    else map fst d ++ [k].
Proof.
  induction d as [|[k1 v1] d IH]; cbn [dict_upd map fst existsb]; [reflexivity|].
  destruct (k1 =? k)%float; cbn [map fst orb]; [reflexivity|].
  rewrite IH. destruct (existsb _ (map fst d)); reflexivity.
Qed.

Lemma z_groups_key_set (vs : list vec3) :
  forall d,
    map fst (fold_left (z_group_step round1) vs d)
    = fold_left (fun s x => if existsb (fun y => (y =? x)%float) s then s
                            else s ++ [x])
                (map (fun v => round1 (v2 v)) vs) (map fst d).
Proof.
  induction vs as [|v vs IH]; intros d; cbn [fold_left map]; [reflexivity|].
  rewrite IH. f_equal. unfold z_group_step. apply dict_upd_key_set.
Qed.

Lemma insert_asc_length (x : float) (l : list float) :
  length (insert_asc x l) = S (length l).
Proof.
  induction l as [|y l IH]; cbn [insert_asc]; [reflexivity|].
  destruct (y <? x)%float; cbn [length]; congruence.
Qed.

Lemma sorted_floats_length (l : list float) : length (sorted_floats l) = length l.
Proof.
  induction l as [|x l IH]; [reflexivity|].
  cbn [sorted_floats fold_right]. fold (sorted_floats l).
  rewrite insert_asc_length. cbn [length]. congruence.
Qed.

End ThreadPatternFacts.

(** X15.  The thread verdict of analyze_thread_pattern depends on the z
    coordinates of the vertices alone -- two meshes whose vertices have
    the same heights in the same order get the same verdict, whatever
    their x, y and normals -- and it is UNCLEAR whenever the mesh has at
    most 10 distinct rounded heights. *)
Theorem thread_verdict_from_heights `{Platform} (round1 : float -> float)
    (facets facets' : list facet) :
  (map v2 (all_vertices facets) = map v2 (all_vertices facets') ->
   analyze_thread_pattern round1 facets = analyze_thread_pattern round1 facets')
  /\ (length (float_set (map (fun v => round1 (v2 v)) (all_vertices facets))) <= 10 ->
      analyze_thread_pattern round1 facets = Ok UNCLEAR).
Proof.
  unfold analyze_thread_pattern. split.
  - intros Hz.
    rewrite (z_groups_keys round1 _ _ [] [] Hz eq_refl). reflexivity.
  - intros Hfew. rewrite sorted_floats_length, z_groups_key_set.
    cbn [map]. fold (float_set (map (fun v => round1 (v2 v)) (all_vertices facets))).
    replace (10 <? _)%nat with false; [reflexivity|].
    symmetry. apply Nat.ltb_ge. exact Hfew.
Qed.

(** ** Best candidates across radii *)

Section BestHoles.
Context `{Platform}.

Lemma grid_dist_sym (a b : void_hit) : grid_dist a b = grid_dist b a.
Proof.
  unfold grid_dist.
  replace ((hx a - hx b) ^ 2 + (hy a - hy b) ^ 2)%Z
    with ((hx b - hx a) ^ 2 + (hy b - hy a) ^ 2)%Z by ring.
  reflexivity.
Qed.

Lemma apart_sym (a b : best_hole) : apart a b -> apart b a.
Proof. unfold apart. rewrite grid_dist_sym. auto. Qed.

Lemma is_dup_false (h : void_hit) (r : float) (best : list best_hole) :
  is_dup_of h best = Ok false -> Forall (fun bh => apart bh (h, r)) best.
Proof.
  induction best as [|bh best IH]; intros Hrun; cbn [is_dup_of] in Hrun;
    [constructor|].
  destruct (grid_dist h (fst bh)) as [d|e] eqn:Hd; cbn [bind] in Hrun; [|discriminate].
  destruct (d <? 3)%float eqn:Hlt; [discriminate|].
  constructor; [|apply IH; exact Hrun].
  apply apart_sym. exists d. auto.
Qed.

(** One radius: its first holes are appended unless they are within range
    of a hole already chosen. *)
Lemma select_loop (radius : float) (hs : list void_hit) :
  forall best r,
    ForallOrdPairs apart best ->
    foldM (select_step radius) hs best = Ok r ->
    exists new,
      r = best ++ new /\ ForallOrdPairs apart r
      /\ length new <= length hs
      /\ Forall (fun bh => snd bh = radius /\ In (fst bh) hs) new.
Proof.
  induction hs as [|h hs IH]; intros best r Hsep Hrun; cbn [foldM] in Hrun.
  - injection Hrun as <-. exists []. rewrite app_nil_r.
    repeat split; [exact Hsep|cbn; lia|constructor].
  - unfold select_step at 1 in Hrun.
    destruct (is_dup_of h best) as [[|]|e] eqn:Hdup; cbn [bind] in Hrun;
      [| |discriminate].
    + destruct (IH _ _ Hsep Hrun) as (new & -> & Hsep' & Hlen & Hnew).
      exists new. repeat split; [exact Hsep'|cbn [length]; lia|].
      eapply Forall_impl; [|exact Hnew]. intros bh [Hr Hin]. split; [exact Hr|right; exact Hin].
    + destruct (IH (best ++ [(h, radius)]) r) as (new & -> & Hsep' & Hlen & Hnew);
        [apply ordpairs_snoc; [exact Hsep|apply is_dup_false; exact Hdup]|exact Hrun|].
      exists ((h, radius) :: new). rewrite <- app_assoc.
      repeat split; [rewrite <- app_assoc in Hsep'; exact Hsep'|cbn [length]; lia|].
      constructor; [split; [reflexivity|left; reflexivity]|].
      eapply Forall_impl; [|exact Hnew]. intros bh [Hr Hin]. split; [exact Hr|right; exact Hin].
Qed.

Lemma firstn_In {A : Type} (n : nat) (l : list A) (x : A) :
  In x (firstn n l) -> In x l.
Proof.
  revert l. induction n as [|n IH]; intros [|y l] Hx; cbn [firstn] in Hx;
    try contradiction.
  destruct Hx as [->|Hx]; [left; reflexivity|right; apply IH; exact Hx].
Qed.

Lemma select_best_loop (dets : list (float * list void_hit)) :
  forall best r,
    ForallOrdPairs apart best ->
    foldM (fun best_holes item =>
             foldM (select_step (fst item)) (firstn 3 (snd item)) best_holes)
          dets best = Ok r ->
    exists new,
      r = best ++ new /\ ForallOrdPairs apart r
      /\ length new <= 3 * length dets
      /\ Forall (fun bh => exists holes, In (snd bh, holes) dets /\ In (fst bh) holes)
                new.
Proof.
  induction dets as [|[radius holes] dets IH]; intros best r Hsep Hrun;
    cbn [foldM] in Hrun.
  - injection Hrun as <-. exists []. rewrite app_nil_r.
    repeat split; [exact Hsep|cbn; lia|constructor].
  - cbn [fst snd] in Hrun.
    destruct (foldM (select_step radius) (firstn 3 holes) best) as [best1|e] eqn:H1;
      cbn [bind] in Hrun; [|discriminate].
    destruct (select_loop _ _ Hsep H1) as (new1 & -> & Hsep1 & Hlen1 & Hnew1).
    destruct (IH _ _ Hsep1 Hrun) as (new2 & -> & Hsep2 & Hlen2 & Hnew2).
    exists (new1 ++ new2). rewrite app_assoc.
    repeat split; [exact Hsep2| |].
    + rewrite length_app. pose proof (firstn_le_length 3 holes). cbn [length]. lia.
    + apply Forall_app. split.
      * eapply Forall_impl; [|exact Hnew1]. intros bh [Hr Hin].
        exists holes. split; [left; rewrite Hr; reflexivity|].
        eapply firstn_In; exact Hin.
      * eapply Forall_impl; [|exact Hnew2]. intros bh (hs & Hd & Hin).
        exists hs. split; [right; exact Hd|exact Hin].
Qed.

Lemma insert_hit_perm (h : void_hit) (l : list void_hit) :
  Permutation (h :: l) (insert_hit h l).
Proof.
  induction l as [|x l IH]; cbn [insert_hit]; [reflexivity|].
  destruct (perimeter_count h <? perimeter_count x)%nat; [|reflexivity].
  rewrite perm_swap. apply perm_skip. exact IH.
Qed.

Lemma sorted_hits_perm (l : list void_hit) : Permutation l (sorted_hits l).
Proof.
  induction l as [|h l IH]; cbn [sorted_hits fold_right]; [reflexivity|].
  rewrite <- insert_hit_perm. apply perm_skip. exact IH.
Qed.

Lemma insert_best_perm (h : best_hole) (l : list best_hole) :
  Permutation (h :: l) (insert_best h l).
Proof.
  induction l as [|x l IH]; cbn [insert_best]; [reflexivity|].
  destruct (perimeter_count (fst h) <? perimeter_count (fst x))%nat; [|reflexivity].
  rewrite perm_swap. apply perm_skip. exact IH.
Qed.

Lemma sorted_best_perm (l : list best_hole) : Permutation l (sorted_best l).
Proof.
  induction l as [|h l IH]; cbn [sorted_best fold_right]; [reflexivity|].
  rewrite <- insert_best_perm. apply perm_skip. exact IH.
Qed.

Lemma detect_loop (verts : list vec3) (radii : list float) :
  forall dets r,
    foldM (detect_step verts) radii dets = Ok r ->
    exists new,
      r = dets ++ new /\ length new <= length radii
      /\ Forall (fun item => In (fst item) radii
                             /\ exists holes,
                                  find_circular_voids_on_top verts (fst item) = Ok holes
                                  /\ snd item = sorted_hits holes) new.
Proof.
  induction radii as [|radius radii IH]; intros dets r Hrun; cbn [foldM] in Hrun.
  - injection Hrun as <-. exists []. rewrite app_nil_r.
    repeat split; [cbn; lia|constructor].
  - unfold detect_step at 1 in Hrun.
    destruct (find_circular_voids_on_top verts radius) as [holes|e] eqn:Hd;
      cbn [bind] in Hrun; [|discriminate].
    destruct (IH _ _ Hrun) as (new & -> & Hlen & Hnew).
    assert (Hnew' : Forall (fun item => In (fst item) (radius :: radii)
                             /\ exists holes,
                                  find_circular_voids_on_top verts (fst item) = Ok holes
                                  /\ snd item = sorted_hits holes) new).
    { eapply Forall_impl; [|exact Hnew]. intros item [Hin Hex].
      split; [right; exact Hin|exact Hex]. }
    destruct holes as [|h hs].
    + exists new. repeat split; [cbn [length]; lia|exact Hnew'].
    + exists ((radius, sorted_hits (h :: hs)) :: new). rewrite <- app_assoc.
      repeat split; [cbn [length]; lia|].
      constructor; [|exact Hnew'].
      split; [left; reflexivity|]. exists (h :: hs). auto.
Qed.

End BestHoles.

(** X16.  The best holes sphere_sweep_detection.main selects are at most
    three per test radius, twelve in all; each is a void that
    find_circular_voids_on_top reported at its test radius; and any two of
    them are apart: their distance was computed and is not below 3. *)
Theorem best_holes_are_apart `{Platform} (verts : list vec3) (best : list best_hole) :
  sphere_sweep_best verts = Ok best ->
  length best <= 12
  /\ (forall a b, In a best -> In b best -> a = b \/ apart a b)
  /\ Forall (fun bh => In (snd bh) test_radii
                       /\ exists holes,
                            find_circular_voids_on_top verts (snd bh) = Ok holes
                            /\ In (fst bh) holes) best.
Proof.
  unfold sphere_sweep_best. intros Hrun.
  destruct (foldM (detect_step verts) test_radii []) as [dets|e] eqn:Hdet;
    cbn [bind] in Hrun; [|discriminate].
  destruct (select_best dets) as [sel|e] eqn:Hsel; cbn [bind] in Hrun; [|discriminate].
  injection Hrun as <-.
  destruct (detect_loop _ _ _ Hdet) as (dets' & -> & Hdlen & Hdets). cbn [app] in *.
  unfold select_best in Hsel.
  destruct (select_best_loop _ (FOP_nil _) Hsel)
    as (new & -> & Hsep & Hlen & Hnew). cbn [app] in *.
  pose proof (sorted_best_perm new) as Hperm.
  split; [|split].
  - rewrite <- (Permutation_length Hperm). cbn [test_radii length] in Hdlen. lia.
  - intros a b Ha Hb.
    apply (Permutation_in _ (Permutation_sym Hperm)) in Ha.
    apply (Permutation_in _ (Permutation_sym Hperm)) in Hb.
    destruct (ForallOrdPairs_In Hsep _ _ Ha Hb) as [Heq|[Hab|Hba]];
      [left; exact Heq|right; exact Hab|right; apply apart_sym; exact Hba].
  - apply (Permutation_Forall Hperm).
    eapply Forall_impl; [|exact Hnew].
    intros bh (holes & Hd & Hin).
    rewrite Forall_forall in Hdets.
    destruct (Hdets _ Hd) as [Hr (hs & Hfound & Hsorted)]. cbn [fst snd] in *.
    split; [exact Hr|]. exists hs. split; [exact Hfound|].
    subst holes. eapply Permutation_in; [symmetry; apply sorted_hits_perm|exact Hin].
Qed.

Lemma best_holes_are_apart_witness :
  length [(mkVoid 6 1 0 52 52, 3%float); (mkVoid 9 1 1 51 51, 5%float)] <= 12
  /\ (forall a b,
        In a [(mkVoid 6 1 0 52 52, 3%float); (mkVoid 9 1 1 51 51, 5%float)] ->
        In b [(mkVoid 6 1 0 52 52, 3%float); (mkVoid 9 1 1 51 51, 5%float)] ->
        a = b \/ apart a b)
  /\ Forall (fun bh => In (snd bh) test_radii
                       /\ exists holes,
                            find_circular_voids_on_top ring_top_dense (snd bh) = Ok holes
                            /\ In (fst bh) holes)
            [(mkVoid 6 1 0 52 52, 3%float); (mkVoid 9 1 1 51 51, 5%float)].
Proof.
  apply (@best_holes_are_apart exact_platform ring_top_dense).
  vm_compute. reflexivity.
Defined.

(** ** Helix detection: the support a verdict needs *)

Section HelixSupport.
Context `{Platform}.

Lemma total_entries_cons (item : float * list (float * float))
    (d : list (float * list (float * float))) :
  total_entries (item :: d) = length (snd item) + total_entries d.
Proof. reflexivity. Qed.

Lemma bucket_step_entries (d d' : list (float * list (float * float)))
    (v : cyl_vert) :
  bucket_step d v = Ok d' -> total_entries d' = S (total_entries d).
Proof.
  unfold bucket_step.
  destruct (Py.round _) as [n|e]; cbn [bind]; [|discriminate].
  destruct (Py.int_truediv n 5) as [k|e]; cbn [bind]; [|discriminate].
  intros Heq. injection Heq as <-.
  induction d as [|[k' l] d IH]; cbn [dict_upd].
  - reflexivity.
  - destruct (k' =? k)%float; rewrite !total_entries_cons; cbn [snd].
    + rewrite length_app. cbn [length]. lia.
    + rewrite IH. lia.
Qed.

Lemma bucket_loop_entries (verts : list cyl_vert) :
  forall d d', foldM bucket_step verts d = Ok d' ->
               total_entries d' = total_entries d + length verts.
Proof.
  induction verts as [|v verts IH]; intros d d' Hrun; cbn [foldM] in Hrun.
  - injection Hrun as <-. cbn [length]. lia.
  - destruct (bucket_step d v) as [d1|e] eqn:Hstep; cbn [bind] in Hrun; [|discriminate].
    rewrite (IH _ _ Hrun), (bucket_step_entries _ _ Hstep). cbn [length]. lia.
Qed.

Lemma buckets_need_entries (d : list (float * list (float * float))) :
  4 * buckets_with_data d <= total_entries d.
Proof.
  unfold buckets_with_data.
  induction d as [|item d IH]; [cbn; lia|].
  rewrite total_entries_cons. cbn [filter].
  destruct (3 <? length (snd item))%nat eqn:Hlen; cbn [length]; [|lia].
  apply Nat.ltb_lt in Hlen. lia.
Qed.

Lemma cyl_loop (cx cy : float) (rr : float * float) (vs : list vec3) :
  forall acc r,
    Forall (in_band rr) acc ->
    foldM (cyl_step cx cy rr) vs acc = Ok r ->
    Forall (in_band rr) r /\ length r <= length acc + length vs.
Proof.
  induction vs as [|v vs IH]; intros acc r Hacc Hrun; cbn [foldM] in Hrun.
  - injection Hrun as <-. split; [exact Hacc|lia].
  - destruct (cyl_step cx cy rr acc v) as [acc'|e] eqn:Hstep; cbn [bind] in Hrun;
      [|discriminate].
    unfold cyl_step in Hstep.
    destruct (py_pow2 _) as [sx|?]; cbn [bind] in Hstep; [|discriminate].
    destruct (py_pow2 _) as [sy|?]; cbn [bind] in Hstep; [|discriminate].
    destruct (Py.sqrt _) as [r0|?]; cbn [bind] in Hstep; [|discriminate].
    destruct ((fst rr <=? r0)%float && (r0 <=? snd rr)%float) eqn:Hband;
      injection Hstep as <-.
    + apply andb_prop in Hband.
      assert (Hacc' : Forall (in_band rr)
                        (acc ++ [mkCyl (v0 v) (v1 v) (v2 v) r0
                                   (c_atan2 (v1 v - cy) (v0 v - cx))])).
      { apply Forall_app. split; [exact Hacc|].
        constructor; [exact Hband|constructor]. }
      destruct (IH _ _ Hacc' Hrun) as [Hall Hlen].
      split; [exact Hall|]. rewrite length_app in Hlen. cbn [length] in *. lia.
    + destruct (IH _ _ Hacc Hrun) as [Hall Hlen].
      split; [exact Hall|]. cbn [length]. lia.
Qed.

End HelixSupport.

(** X17.  A verdict needs support: whenever detect_helical_pattern returns
    a classification, helical or not, at least 5 height buckets hold more
    than 3 vertices each, so at least 20 vertices of the mesh lie in the
    radius band; with fewer it returns [None] or raises. *)
Theorem helix_verdict_needs_support `{Platform}
    (facets : list facet) (cx cy : float) (radius_range : float * float)
    (c : classification) :
  detect_helical_pattern facets cx cy radius_range = Ok (Some c) ->
  exists verts z_angle_data,
    cylindrical_verts_of facets cx cy radius_range = Ok verts
    /\ Forall (in_band radius_range) verts
    /\ z_angle_data_of verts = Ok z_angle_data
    /\ 5 <= buckets_with_data z_angle_data
    /\ 20 <= length verts <= length (all_vertices facets).
Proof.
  unfold detect_helical_pattern. intros Hrun.
  destruct (cylindrical_verts_of facets cx cy radius_range) as [verts|e] eqn:Hv;
    cbn [bind] in Hrun; [|discriminate].
  destruct verts as [|v verts]; [discriminate|].
  destruct (z_angle_data_of (v :: verts)) as [d|e] eqn:Hd; cbn [bind] in Hrun;
    [|discriminate].
  destruct (length (sorted_items d) <? 5)%nat; [discriminate|].
  destruct (progression_length d) as (prog & Hp & Hlen).
  rewrite Hp in Hrun. cbn [bind] in Hrun.
  unfold helix_of_progression in Hrun.
  destruct (length prog <? 5)%nat eqn:H5; [discriminate|].
  apply Nat.ltb_ge in H5.
  exists (v :: verts), d.
  destruct (@cyl_loop _ cx cy radius_range (all_vertices facets) [] (v :: verts)
              (Forall_nil _) Hv) as [Hband Hle].
  pose proof (@bucket_loop_entries (v :: verts) [] d Hd) as Htot.
  pose proof (buckets_need_entries d) as Hneed.
  change (total_entries []) with 0 in Htot. cbn [length] in Hle.
  repeat split; try assumption; lia.
Qed.

Lemma helix_verdict_needs_support_witness :
  exists verts z_angle_data,
    cylindrical_verts_of (wall_mesh 5) 0 0 (2, 8)%float = Ok verts
    /\ Forall (in_band (2, 8)%float) verts
    /\ z_angle_data_of verts = Ok z_angle_data
    /\ 5 <= buckets_with_data z_angle_data
    /\ 20 <= length verts <= length (all_vertices (wall_mesh 5)).
Proof.
  apply (@helix_verdict_needs_support exact_platform (wall_mesh 5) 0 0
           (2, 8)%float NotHelical).
  vm_compute. reflexivity.
Defined.

(** ** The pipeline of better_hole_finder.main *)

Section PipelineFacts.
Context `{Platform}.

Lemma read_triangles_three (k : nat) :
  forall f acc fs,
    length (all_vertices acc) = 3 * length acc ->
    read_triangles k f acc = Ok fs ->
    length (all_vertices fs) = 3 * length fs.
Proof.
  induction k as [|k IH]; intros f acc fs Hacc Hrun; cbn [read_triangles] in Hrun.
  - injection Hrun as <-. exact Hacc.
  - destruct (read_triangle f) as [[t f']|e] eqn:Ht; cbn [bind] in Hrun;
      [|discriminate].
    apply (IH _ _ _) in Hrun; [exact Hrun|].
    unfold all_vertices in *. rewrite flat_map_app, !length_app, Hacc.
    cbn [flat_map length]. rewrite app_nil_r.
    destruct (Nat.lt_ge_cases (length f) 48) as [Hs|Hl].
    + rewrite read_triangle_short in Ht by exact Hs. discriminate.
    + rewrite read_triangle_long in Ht by exact Hl. injection Ht as <- _.
      cbn [facet_of_record vertices length]. lia.
Qed.

Lemma parsed_vertices_three (file : stream) (facets : list facet) :
  parse_binary_stl file = Ok facets ->
  length (all_vertices facets) = 3 * length facets.
Proof.
  unfold parse_binary_stl, read.
  destruct (unpack_I (firstn 4 (skipn 80 file))) as [n|e]; cbn [bind];
    [|discriminate].
  apply (read_triangles_three _ _ [] eq_refl).
Qed.

Lemma subseq_confidence (l1 l2 : list hole) :
  subseq l1 l2 -> Forall (fun h => (0 <= confidence h)%Z) l2 ->
  (total_confidence l1 <= total_confidence l2)%Z.
Proof.
  induction 1 as [|x l1 l2 Hs IH|x l1 l2 Hs IH]; intros Hpos.
  - lia.
  - inversion Hpos; subst. rewrite total_confidence_cons. specialize (IH H3). lia.
  - inversion Hpos; subst. rewrite !total_confidence_cons. specialize (IH H3). lia.
Qed.

Lemma total_confidence_perm (l l' : list hole) :
  Permutation l l' -> total_confidence l = total_confidence l'.
Proof. induction 1; rewrite ?total_confidence_cons; lia. Qed.

End PipelineFacts.

(** X18.  End to end, the holes better_hole_finder.main finds in a file
    each have a confidence above 100, come in descending order of
    confidence, are pairwise out of the 3 mm merge range, and their
    confidences add up to at most three times the number of facets of the
    file. *)
Theorem better_hole_finder_reports `{Platform} (file : stream) (r : list hole) :
  better_hole_finder_main file = Ok r ->
  exists facets,
    parse_binary_stl file = Ok facets
    /\ Forall (fun h => (100 < confidence h)%Z
                        /\ diameter h = (radius h * 2)%float
                        /\ depth h = (z_max h - z_min h)%float) r
    /\ StronglySorted conf_ge r
    /\ ForallOrdPairs (out_of_range 3) r
    /\ (total_confidence r <= 3 * Z.of_nat (length facets))%Z.
Proof.
  unfold better_hole_finder_main. intros Hrun.
  destruct (parse_binary_stl file) as [facets|e] eqn:Hparse; cbn [bind] in Hrun;
    [|discriminate].
  destruct (find_vertical_cylinders facets) as [holes|e] eqn:Hfind;
    cbn [bind] in Hrun; [|discriminate].
  exists facets. split; [reflexivity|].
  (* the candidates of the radial search *)
  assert (Hcand : Forall (fun h => (100 < confidence h)%Z
                                   /\ diameter h = (radius h * 2)%float
                                   /\ depth h = (z_max h - z_min h)%float) holes
                  /\ (total_confidence holes
                      <= Z.of_nat (length (all_vertices facets)))%Z).
  { unfold find_vertical_cylinders in Hfind.
    destruct (Py.div_len _ _) as [cx|e]; cbn [bind] in Hfind; [|discriminate].
    destruct (Py.div_len _ _) as [cy|e]; cbn [bind] in Hfind; [|discriminate].
    destruct (foldM (radial_step cx cy) (all_vertices facets) []) as [d|e] eqn:Hloop;
      cbn [bind] in Hfind; [|discriminate].
    destruct (candidate_loop (sorted_items d) []) as (new & Hnew & Hall & Htot).
    rewrite Hnew in Hfind. injection Hfind as <-. cbn [app]. split.
    - eapply Forall_impl; [|exact Hall]. intros h (H1 & H2 & H3 & _). auto.
    - apply radial_loop_positions in Hloop.
      rewrite <- (total_positions_perm (sorted_items_perm d)) in Htot.
      change (total_positions []) with 0 in Hloop. lia. }
  destruct Hcand as [Hall Htot].
  (* the clustering *)
  destruct (cluster_holes_facts holes 3) as [Heq F].
  destruct (F r Hrun) as [Hsub _].
  assert (Hin : forall h, In h r -> In h holes).
  { intros h Hh. eapply Permutation_in; [symmetry; apply sorted_desc_perm|].
    eapply subseq_In; eassumption. }
  split; [|split; [|split]].
  - apply Forall_forall. intros h Hh. rewrite Forall_forall in Hall. auto.
  - eapply subseq_sorted; [exact Hsub|apply sorted_desc_sorted].
  - pose proof Hrun as Hkeep. rewrite Heq in Hkeep.
    destruct (cluster_holes_unfold holes 3) as [_ Hk]. rewrite Hk in Hkeep.
    apply (@keep_loop_separated _ 3 (sorted_desc holes) [] r (FOP_nil _) Hkeep).
  - rewrite (parsed_vertices_three _ Hparse) in Htot.
    assert (Hle : (total_confidence r <= total_confidence (sorted_desc holes))%Z).
    { apply subseq_confidence; [exact Hsub|].
      apply (Permutation_Forall (sorted_desc_perm holes)).
      eapply Forall_impl; [|exact Hall]. intros h (H1 & _). lia. }
    rewrite <- (total_confidence_perm (sorted_desc_perm holes)) in Hle. lia.
Qed.

Lemma better_hole_finder_reports_witness :
  exists facets,
    parse_binary_stl post_file = Ok facets
    /\ Forall (fun h => (100 < confidence h)%Z
                        /\ diameter h = (radius h * 2)%float
                        /\ depth h = (z_max h - z_min h)%float)
              [mkHole 0 0 0 17 17 3 6 108]
    /\ StronglySorted conf_ge [mkHole 0 0 0 17 17 3 6 108]
    /\ ForallOrdPairs (out_of_range 3) [mkHole 0 0 0 17 17 3 6 108]
    /\ (total_confidence [mkHole 0 0 0 17 17 3 6 108]
        <= 3 * Z.of_nat (length facets))%Z.
Proof.
  apply (@better_hole_finder_reports exact_platform post_file).
  vm_compute. reflexivity.
Defined.

Example post_file_parses : parse_binary_stl post_file = Ok (post_mesh 18).
Proof. vm_compute. reflexivity. Qed.

(** ** The verdict of analyze_stl.main *)

Lemma possible_threads_need_levels `{Platform} (round1 : float -> float)
    (facets : list facet) :
  analyze_thread_pattern round1 facets = Ok POSSIBLE_PRINTED_THREADS ->
  10 < length (float_set (map (fun v => round1 (v2 v)) (all_vertices facets))).
Proof.
  unfold analyze_thread_pattern.
  rewrite sorted_floats_length, z_groups_key_set. cbn [map].
  fold (float_set (map (fun v => round1 (v2 v)) (all_vertices facets))).
  destruct (10 <? _)%nat eqn:Hlen; [|discriminate].
  intros _. apply Nat.ltb_lt. exact Hlen.
Qed.

(** X19.  analyze_stl.main does not reach a conclusion on a mesh without
    vertices: its bounding-box report raises ValueError.  And it concludes
    "possible printed threads" only for a mesh in which it found at least
    one circular cross-section and more than 10 distinct rounded heights. *)
Theorem analyze_stl_verdict `{Platform}
    (parse_ascii_stl : stream -> result (list facet)) (round1 : float -> float)
    (file : stream) :
  (forall facets,
      parse_stl parse_ascii_stl file = Ok facets -> all_vertices facets = [] ->
      analyze_stl_main parse_ascii_stl round1 file = Raise ValueError)
  /\ (analyze_stl_main parse_ascii_stl round1 file = Ok PrintedThreads ->
      exists facets ft fs,
        parse_stl parse_ascii_stl file = Ok facets
        /\ find_cylindrical_features facets 0.5 = Ok (ft :: fs)
        /\ 10 < length (float_set (map (fun v => round1 (v2 v))
                                       (all_vertices facets)))).
Proof.
  unfold analyze_stl_main. split.
  - intros facets -> Hempty. cbn [bind]. rewrite Hempty. reflexivity.
  - destruct (parse_stl parse_ascii_stl file) as [facets|e]; cbn [bind];
      [|discriminate].
    destruct (Py.min (map v0 _)); cbn [bind]; [|discriminate].
    destruct (Py.max (map v0 _)); cbn [bind]; [|discriminate].
    destruct (Py.min (map v1 _)); cbn [bind]; [|discriminate].
    destruct (Py.max (map v1 _)); cbn [bind]; [|discriminate].
    destruct (Py.min (map v2 _)); cbn [bind]; [|discriminate].
    destruct (Py.max (map v2 _)); cbn [bind]; [|discriminate].
    destruct (find_cylindrical_features facets 0.5) as [[|ft fs]|e] eqn:Hf;
      cbn [bind]; try discriminate.
    + destruct (analyze_thread_pattern round1 facets); cbn [bind]; discriminate.
    + destruct (analyze_thread_pattern round1 facets) as [[|]|e] eqn:Ht;
        cbn [bind]; try discriminate.
      * intros _. exists facets, ft, fs.
        split; [reflexivity|]. split; [exact Hf|].
        apply possible_threads_need_levels. exact Ht.
      * cbn [length Py.div_len bind].
        destruct (_ <? 0.5)%float; discriminate.
Qed.

Lemma analyze_stl_verdict_witness :
  analyze_stl_main (fun _ => Raise ValueError) (fun x => x) empty_mesh
  = Raise ValueError.
Proof.
  apply (proj1 (@analyze_stl_verdict exact_platform (fun _ => Raise ValueError)
                  (fun x => x) empty_mesh) []).
  - vm_compute. reflexivity.
  - reflexivity.
Defined.
